(** * portfolio-builder: the data build job [build_data.py]

    A shallow embedding of the batch job that turns a table of monthly
    closing prices into the document [portfolio_data.json]: monthly
    percentage returns per symbol, pairwise correlations, and the
    benchmark ("SPY") series.

    Numbers are IEEE-754 binary64 values (Rocq's primitive [float]), as
    Python's [float] and numpy's [float64] are.  The arithmetic that the
    script itself performs (the quotient, [- 1], [* 100], the rounding by
    the built-in [round]) is embedded operation by operation.  The pandas
    and numpy routines that compute a correlation coefficient from a list
    of paired observations, and Python's shortest-repr printing of a
    finite float, are library code: they enter as parameters of the
    section [Job]. *)

From Stdlib Require Import ZArith Floats.
From stdpp Require Import base list gmap strings pretty sorting.

Set Default Proof Using "Type".

(** ** Python built-ins *)

(** The double-quote character, and the strings that need one. *)
Definition dquote : string :=
  Eval compute in String (Ascii.ascii_of_nat 34) EmptyString.

(** [sep.join(parts)]. *)
Definition join (sep : string) (parts : list string) : string :=
  String.concat sep parts.

(** [str(n).zfill(width)], the zero padding of [%Y], [%m] and [%d]. *)
Definition zfill (width : nat) (s : string) : string :=
  join EmptyString (replicate (width - String.length s) "0") +:+ s.

(** The integer nearest to [n / d] for [0 < d], ties going to the even
    neighbour. *)
Definition div_half_even (n d : Z) : Z :=
  let q := (n / d)%Z in
  match (2 * (n mod d) ?= d)%Z with
  | Lt => q
  | Gt => (q + 1)%Z
  | Eq => if Z.even q then q else (q + 1)%Z
  end.

(** The binary64 value nearest to [(-1)^s * k / 10^ndigits], which is what
    [strtod] returns for the decimal string that [round] has built. *)
Definition decimal_to_float (s : bool) (k : Z) (ndigits : nat) : float :=
  match k with
  | Zpos p =>
      SF2Prim (SFdiv prec emax (S754_finite s p 0)
                 (S754_finite false (Z.to_pos (10 ^ Z.of_nat ndigits)) 0))
  | _ => if s then neg_zero else zero
  end.

(** [round(x, ndigits)] for a float [x] and [0 <= ndigits]: the exact
    binary value of [x] is rounded to [ndigits] decimals, half to even,
    and the decimal is converted back to the nearest float.  Zeros,
    infinities and NaN round to themselves. *)
Definition py_round (x : float) (ndigits : nat) : float :=
  match Prim2SF x with
  | S754_finite s m e =>
      let k := div_half_even (Zpos m * 2 ^ Z.max e 0 * 10 ^ Z.of_nat ndigits)
                 (2 ^ Z.max (- e) 0) in
      decimal_to_float s k ndigits
  | _ => x
  end.

(** [pd.notna(v)] on a float scalar. *)
Definition notna (v : float) : bool := negb (is_nan v).

(** A Python [dict] with string keys: insertion ordered, one entry per
    key; assigning to a key that is present replaces its value in place. *)
Abbreviation dict V := (list (string * V)).

Fixpoint dict_get {V} (k : string) (d : dict V) : option V :=
  match d with
  | [] => None
  | (k', v) :: d' => if String.eqb k k' then Some v else dict_get k d'
  end.

Fixpoint dict_set {V} (k : string) (v : V) (d : dict V) : dict V :=
  match d with
  | [] => [(k, v)]
  | (k', v') :: d' =>
      if String.eqb k k' then (k, v) :: d' else (k', v') :: dict_set k v d'
  end.

Definition keys {V} (d : dict V) : list string := d.*1.

(** [enumerate(l)]. *)
Definition enumerate {A} (l : list A) : list (nat * A) := imap pair l.

(** ** Dates *)

(** A calendar date: what [datetime.now()] and the entries of a pandas
    [DatetimeIndex] expose through [strftime] and [isoformat]. *)
Record datetime := { year : nat; month : nat; day : nat }.

Global Instance datetime_eq_dec : EqDecision datetime.
Proof. solve_decision. Defined.

(** [d.strftime("%Y-%m")], for the four-digit years of a pandas
    [Timestamp]. *)
Definition strftime_Ym (d : datetime) : string :=
  zfill 4 (pretty (year d)) +:+ "-" +:+ zfill 2 (pretty (month d)).

(** [d.isoformat()[:10]]: the date part of the ISO form. *)
Definition isoformat_date (d : datetime) : string :=
  zfill 4 (pretty (year d)) +:+ "-" +:+ zfill 2 (pretty (month d))
    +:+ "-" +:+ zfill 2 (pretty (day d)).

(** Chronological order. *)
Definition dt_lt (a b : datetime) : Prop :=
  year a < year b ∨
  (year a = year b ∧
   (month a < month b ∨ (month a = month b ∧ day a < day b))).

Definition dt_le (a b : datetime) : Prop :=
  year a < year b ∨
  (year a = year b ∧
   (month a < month b ∨ (month a = month b ∧ day a ≤ day b))).

Global Instance dt_lt_dec a b : Decision (dt_lt a b).
Proof. unfold dt_lt. apply _. Defined.

Global Instance dt_le_dec a b : Decision (dt_le a b).
Proof. unfold dt_le. apply _. Defined.

(** A strictly increasing index: adjacent entries are in order. *)
Fixpoint increasing (l : list datetime) : bool :=
  match l with
  | [] => true
  | a :: l' =>
      match l' with
      | [] => true
      | b :: _ => bool_decide (dt_lt a b) && increasing l'
      end
  end.

(** ** pandas: series and frames *)

(** A [Series] of floats over a [DatetimeIndex]; NaN marks a missing
    observation. *)
Abbreviation Series := (list (datetime * float)).

Definition s_index (s : Series) : list datetime := s.*1.
Definition s_values (s : Series) : list float := s.*2.

(** [s.dropna()]. *)
Definition dropna (s : Series) : Series :=
  filter (λ p, is_nan p.2 = false) s.

(** [s.pct_change()]: [s / s.shift(1) - 1]; the first entry has no
    predecessor and is NaN. *)
Fixpoint pct_from (prev : float) (s : Series) : Series :=
  match s with
  | [] => []
  | (t, p) :: s' => (t, (p / prev - 1)%float) :: pct_from p s'
  end.

Definition pct_change (s : Series) : Series :=
  match s with
  | [] => []
  | (t, p) :: s' => (t, nan) :: pct_from p s'
  end.

(** [s * c]. *)
Definition smul (s : Series) (c : float) : Series :=
  (λ p, (p.1, (p.2 * c)%float)) <$> s.

(** The value of [s] at label [t]. *)
Fixpoint s_lookup (t : datetime) (s : Series) : option float :=
  match s with
  | [] => None
  | (t', v) :: s' => if decide (t = t') then Some v else s_lookup t s'
  end.

(** [s.reindex(idx)]: labels that [s] lacks get NaN. *)
Definition reindex (s : Series) (idx : list datetime) : list float :=
  (λ t, default nan (s_lookup t s)) <$> idx.

(** The sorted union of several indexes, the index of an outer join. *)
Definition union_index (idxs : list (list datetime)) : list datetime :=
  merge_sort dt_le (remove_dups (concat idxs)).

(** A frame: named columns over one index, held row by row. *)
Record Frame := { f_names : list string; f_rows : list (datetime * list float) }.

(** [pd.DataFrame(d)] for a dict of series, and
    [pd.concat(series, axis=1)]: the columns are aligned on the union of
    the indexes, and a series has NaN at the labels it lacks. *)
Definition pd_DataFrame (d : dict Series) : Frame :=
  let idx := union_index (s_index <$> d.*2) in
  {| f_names := keys d;
     f_rows := (λ t, (t, (λ s, default nan (s_lookup t s)) <$> d.*2)) <$> idx |}.

(** [f.dropna()]: the rows without any NaN. *)
Definition frame_dropna (f : Frame) : Frame :=
  {| f_names := f_names f;
     f_rows := filter (λ r, forallb notna r.2 = true) (f_rows f) |}.

(** [len(f)]. *)
Definition frame_len (f : Frame) : nat := length (f_rows f).

(** [f.iloc[:, i]]. *)
Definition iloc_col (f : Frame) (i : nat) : Series :=
  (λ r, (r.1, default nan (r.2 !! i))) <$> f_rows f.

(** The position of a column label. *)
Fixpoint index_of (k : string) (l : list string) : option nat :=
  match l with
  | [] => None
  | k' :: l' => if String.eqb k k' then Some 0 else S <$> index_of k l'
  end.

(** The observations of two aligned columns at the rows where neither is
    NaN. *)
Definition complete_pairs (c1 c2 : list float) : list (float * float) :=
  filter (λ p, is_nan p.1 = false ∧ is_nan p.2 = false) (zip c1 c2).

(** The inner join of two series: the paired values at the labels they
    share, in the order of the first. *)
Definition inner_join (s1 s2 : Series) : list (float * float) :=
  omap (λ p, pair p.2 <$> s_lookup p.1 s2) s1.

(** ** The fetched price table *)

(** The table that the bulk download returns: one chronological index
    and, per (field, symbol) column label, a column of floats in which NaN
    marks a month without observation.  A pandas [DatetimeIndex] as the
    provider delivers it is strictly increasing; the record carries that
    fact. *)
Record PriceTable := {
  df_index : list datetime;
  df_columns : gmap (string * string) (list float);
  df_index_increasing : increasing df_index = true
}.

(** [df.empty]: no row or no column. *)
Definition df_empty (df : PriceTable) : bool :=
  bool_decide (df_index df = []) || bool_decide (size (df_columns df) = 0).

Inductive Exception := KeyError (key : string).

(** [str(e)] for a [KeyError]: the repr of the key. *)
Definition exception_str (e : Exception) : string :=
  match e with KeyError k => "'" +:+ k +:+ "'" end.

(** [df[field][symbol]]: the first subscript fails when no column has
    that field, the second when the symbol has no column under it. *)
Definition getitem2 (df : PriceTable) (field symbol : string)
  : Exception + Series :=
  match df_columns df !! (field, symbol) with
  | Some col => inr (zip (df_index df) col)
  | None =>
      if existsb (λ kv, String.eqb kv.1.1 field) (map_to_list (df_columns df))
      then inl (KeyError symbol)
      else inl (KeyError field)
  end.

(** ** The ticker registry *)

Definition TICKERS : dict (string * string) := [
  ("AAPL", ("Apple", "Technology"));
  ("MSFT", ("Microsoft", "Technology"));
  ("GOOGL", ("Alphabet", "Technology"));
  ("AMZN", ("Amazon", "Technology"));
  ("TSLA", ("Tesla", "Technology"));
  ("META", ("Meta", "Technology"));
  ("NVDA", ("NVIDIA", "Technology"));
  ("CRM", ("Salesforce", "Technology"));
  ("AMD", ("AMD", "Technology"));
  ("INTC", ("Intel", "Technology"));
  ("ORCL", ("Oracle", "Technology"));
  ("ADBE", ("Adobe", "Technology"));
  ("JPM", ("JPMorgan Chase", "Financials"));
  ("BAC", ("Bank of America", "Financials"));
  ("GS", ("Goldman Sachs", "Financials"));
  ("V", ("Visa", "Financials"));
  ("MA", ("Mastercard", "Financials"));
  ("BRK-B", ("Berkshire Hathaway", "Financials"));
  ("JNJ", ("Johnson & Johnson", "Healthcare"));
  ("PFE", ("Pfizer", "Healthcare"));
  ("UNH", ("UnitedHealth", "Healthcare"));
  ("LLY", ("Eli Lilly", "Healthcare"));
  ("MRK", ("Merck", "Healthcare"));
  ("ABBV", ("AbbVie", "Healthcare"));
  ("XOM", ("ExxonMobil", "Energy"));
  ("CVX", ("Chevron", "Energy"));
  ("COP", ("ConocoPhillips", "Energy"));
  ("DUK", ("Duke Energy", "Utilities"));
  ("NEE", ("NextEra Energy", "Utilities"));
  ("SO", ("Southern Co", "Utilities"));
  ("AEP", ("American Electric Power", "Utilities"));
  ("KO", ("Coca-Cola", "Consumer Staples"));
  ("PEP", ("PepsiCo", "Consumer Staples"));
  ("PG", ("Procter & Gamble", "Consumer Staples"));
  ("WMT", ("Walmart", "Consumer Staples"));
  ("COST", ("Costco", "Consumer Staples"));
  ("MCD", ("McDonald's", "Consumer Discretionary"));
  ("DIS", ("Disney", "Consumer Discretionary"));
  ("NFLX", ("Netflix", "Consumer Discretionary"));
  ("NKE", ("Nike", "Consumer Discretionary"));
  ("SBUX", ("Starbucks", "Consumer Discretionary"));
  ("HD", ("Home Depot", "Consumer Discretionary"));
  ("LOW", ("Lowe's", "Consumer Discretionary"));
  ("BA", ("Boeing", "Industrials"));
  ("CAT", ("Caterpillar", "Industrials"));
  ("GE", ("GE Aerospace", "Industrials"));
  ("UPS", ("UPS", "Industrials"));
  ("RTX", ("RTX Corp", "Industrials"));
  ("AMT", ("American Tower", "Real Estate"));
  ("PLD", ("Prologis", "Real Estate"));
  ("T", ("AT&T", "Communications"));
  ("VZ", ("Verizon", "Communications"));
  ("TMUS", ("T-Mobile", "Communications"));
  ("LIN", ("Linde", "Materials"));
  ("APD", ("Air Products", "Materials"));
  ("QQQ", ("Nasdaq 100 ETF", "ETF"));
  ("IWM", ("Russell 2000 ETF", "ETF"));
  ("GLD", ("Gold ETF", "ETF"));
  ("TLT", ("20+ Year Treasury ETF", "ETF"));
  ("BND", ("Total Bond ETF", "ETF"));
  ("VNQ", ("Real Estate ETF", "ETF"));
  ("XLE", ("Energy Select ETF", "ETF"))
].

(** [ticker_list = list(TICKERS.keys())]. *)
Definition ticker_list : list string := keys TICKERS.

(** ** The output document and its JSON form *)

Record TickerEntry := {
  te_name : string;
  te_sector : string;
  te_dates : list string;
  te_returns : list float
}.

(** The dict [data] that the job serialises. *)
Record OutputDocument := {
  generated : string;
  spy_dates : list string;
  spy_returns : list float;
  tickers : dict TickerEntry;
  correlations : dict float
}.

(** The Python values that [data] is made of. *)
#[local] Set Warnings "-register-all".
Inductive json :=
  | JStr (s : string)
  | JFloat (x : float)
  | JList (l : list json)
  | JDict (d : list (string * json)).

Definition nl : string :=
  Eval compute in String (Ascii.ascii_of_nat 10) EmptyString.

(** The escapes of [json.dumps] for the characters of a string; the
    strings of this job (symbols, names, sectors, dates) are ASCII. *)
Definition json_escape_char (c : Ascii.ascii) : string :=
  let n := Ascii.nat_of_ascii c in
  if n =? 34 then "\" +:+ dquote
  else if n =? 92 then "\\"
  else if n =? 10 then "\n"
  else if n =? 13 then "\r"
  else if n =? 9 then "\t"
  else if n =? 8 then "\b"
  else if n =? 12 then "\f"
  else if (n <? 32) || (126 <? n) then
    "\u00" +:+ String.substring (n / 16) 1 "0123456789abcdef"
           +:+ String.substring (n mod 16) 1 "0123456789abcdef"
  else String c EmptyString.

Fixpoint json_escape (s : string) : string :=
  match s with
  | EmptyString => EmptyString
  | String c s' => json_escape_char c +:+ json_escape s'
  end.

Definition json_string (s : string) : string :=
  dquote +:+ json_escape s +:+ dquote.

(** ** The job *)

(** What a run leaves behind: the text printed, the exit status, and the
    file written (path and contents), if any. *)
Record Run := {
  stdout : list string;
  exit_code : Z;
  written : option (string * string)
}.

(** How the transform ends: [sys.exit(code)], or the dict [data]. *)
Inductive Outcome :=
  | Exit (code : Z)
  | Completed (data : OutputDocument).

(** The state of the loop over [ticker_list]. *)
Record LoopState := {
  returns_dict : dict Series;
  ticker_data : dict TickerEntry;
  printed : list string
}.

(** The key of a pair in [correlations]: [f"{t1},{t2}"]. *)
Definition pair_key (t1 t2 : string) : string := t1 +:+ "," +:+ t2.

(** [close.pct_change().dropna() * 100]. *)
Definition pct_returns (close : Series) : Series :=
  smul (dropna (pct_change close)) 100.

(** [[d.strftime("%Y-%m") for d in ret.index]]. *)
Definition month_labels (ret : Series) : list string :=
  strftime_Ym <$> s_index ret.

(** [[round(float(r), 4) for r in ret.values]]. *)
Definition rounded_returns (ret : Series) : list float :=
  (λ r, py_round r 4) <$> s_values ret.

Section Job.

(** The numeric kernels of [DataFrame.corr] and of [Series.corr],
    library code outside the repository: from a list of observations
    without NaN they compute a coefficient, NaN when it is undefined.
    What holds for every kernel is stated for these variables; what the
    kernels compute is a hypothesis of the properties that depend on
    it. *)
Variable frame_pearson : list (float * float) → float.
Variable series_pearson : list (float * float) → float.

(** [float.__repr__] on a finite float. *)
Variable float_repr : float → string.

(** Modelled from the spec: pandas' [DataFrame.corr] is library code
    outside the repository.  The entry of the correlation matrix for
    two columns is the "pairwise Pearson correlation using only mutually
    overlapping periods (pairwise-complete observations)": the kernel
    applied to the rows in which both columns have a value.  What the
    kernel makes of these rows, also that pandas' kernel passes over
    a row with an infinite value, is the kernel's contract. *)
Definition DataFrame_corr (f : Frame) (t1 t2 : string) : float :=
  match index_of t1 (f_names f), index_of t2 (f_names f) with
  | Some i, Some j =>
      frame_pearson (complete_pairs (s_values (iloc_col f i))
                                    (s_values (iloc_col f j)))
  | _, _ => nan
  end.

(** Modelled from the spec: pandas' [Series.corr] is library code
    outside the repository.  The two series are aligned on the labels
    they share and the kernel is applied to the observations present in
    both. *)
Definition Series_corr (s1 s2 : Series) : float :=
  series_pearson
    (filter (λ p, is_nan p.1 = false ∧ is_nan p.2 = false)
       (inner_join s1 s2)).

(** One iteration of the loop over [ticker_list] (lines 137-160). *)
Definition process_ticker (df : PriceTable) (st : LoopState)
    (ticker : string) : LoopState :=
  let out := printed st ++ ["  " +:+ ticker +:+ " ... "] in
  match getitem2 df "Close" ticker with
  | inl (KeyError _) =>
      {| returns_dict := returns_dict st; ticker_data := ticker_data st;
         printed := out ++ ["NOT IN DATA" +:+ nl] |}
  | inr column =>
      let close := dropna column in
      if length close <? 24 then
        {| returns_dict := returns_dict st; ticker_data := ticker_data st;
           printed := out ++ ["only " +:+ pretty (length close)
                                +:+ " months, skipping" +:+ nl] |}
      else
        let ret := pct_returns close in
        let dates := month_labels ret in
        let returns := rounded_returns ret in
        match dict_get ticker TICKERS with
        | None =>
            {| returns_dict := returns_dict st;
               ticker_data := ticker_data st;
               printed := out ++ ["NOT IN DATA" +:+ nl] |}
        | Some (name, sector) =>
            {| returns_dict := dict_set ticker ret (returns_dict st);
               ticker_data :=
                 dict_set ticker
                   {| te_name := name; te_sector := sector;
                      te_dates := dates; te_returns := returns |}
                   (ticker_data st);
               printed := out ++ [pretty (length returns) +:+ " months" +:+ nl] |}
        end
  end.

(** The upper triangle of the correlation matrix (lines 168-174). *)
Definition pair_correlations (valid_tickers : list string)
    (corr_matrix : string → string → float) : dict float :=
  foldl (λ acc1 it1,
    foldl (λ acc2 it2,
      if it1.1 <? it2.1 then
        let val := corr_matrix it1.2 it2.2 in
        if notna val
        then dict_set (pair_key it1.2 it2.2) (py_round val 3) acc2
        else acc2
      else acc2) acc1 (enumerate valid_tickers))
    [] (enumerate valid_tickers).

(** One iteration of the benchmark loop (lines 179-184). *)
Definition spy_correlation (spy_series : Series)
    (returns_dict : dict Series) (acc : dict float) (ticker : string)
    : dict float :=
  match dict_get ticker returns_dict with
  | None => acc
  | Some ret =>
      let combined :=
        frame_dropna (pd_DataFrame [("SPY", spy_series); (ticker, ret)]) in
      if 12 <? frame_len combined then
        let corr_val :=
          Series_corr (iloc_col combined 0) (iloc_col combined 1) in
        if notna corr_val
        then dict_set (pair_key "SPY" ticker) (py_round corr_val 3) acc
        else acc
      else acc
  end.

(** Lines 117-191: from the fetched table to the dict [data], with the
    text printed on the way.  [now] is the clock reading of line 187. *)
Definition transform (df : PriceTable) (now : datetime)
    : list string * Outcome :=
  if df_empty df then (["FAILED - no data returned" +:+ nl], Exit 1)
  else
    let out0 := ["  Processing SPY ... "] in
    match getitem2 df "Close" "SPY" with
    | inl e => (out0 ++ ["FAILED (" +:+ exception_str e +:+ ")" +:+ nl], Exit 1)
    | inr column =>
        let spy_close := dropna column in
        let spy_ret := pct_returns spy_close in
        let spy_dates := month_labels spy_ret in
        let spy_returns := rounded_returns spy_ret in
        let out1 := out0 ++ [pretty (length spy_returns) +:+ " months" +:+ nl] in
        let st := foldl (process_ticker df)
                    {| returns_dict := []; ticker_data := []; printed := out1 |}
                    ticker_list in
        let valid_tickers := keys (returns_dict st) in
        let ret_df := pd_DataFrame (returns_dict st) in
        let corr_matrix := DataFrame_corr ret_df in
        let correlations0 := pair_correlations valid_tickers corr_matrix in
        let out2 := printed st ++ ["  Computing correlation matrix...";
                      " " +:+ pretty (length correlations0) +:+ " pairs" +:+ nl] in
        let correlations1 :=
          foldl (spy_correlation spy_ret (returns_dict st))
            correlations0 valid_tickers in
        (out2,
         Completed {| generated := isoformat_date now;
                      spy_dates := spy_dates;
                      spy_returns := spy_returns;
                      tickers := ticker_data st;
                      correlations := correlations1 |})
    end.

(** [json.dumps] of a float: [repr], with the three non-finite values
    spelled out. *)
Definition json_float (x : float) : string :=
  if is_nan x then "NaN"
  else if is_infinity x then (if get_sign x then "-Infinity" else "Infinity")
  else float_repr x.

(** [json.dumps(v, separators=(",", ":"))]. *)
Fixpoint json_dumps (v : json) : string :=
  match v with
  | JStr s => json_string s
  | JFloat x => json_float x
  | JList l => "[" +:+ join "," (json_dumps <$> l) +:+ "]"
  | JDict d =>
      "{" +:+ join "," ((λ kv, match kv with
                               | (k, v') => json_string k +:+ ":" +:+ json_dumps v'
                               end) <$> d) +:+ "}"
  end.

Definition series_json (dates : list string) (returns : list float)
    : list (string * json) :=
  [("dates", JList (JStr <$> dates)); ("returns", JList (JFloat <$> returns))].

(** The dict [data] (lines 186-191) as a Python value. *)
Definition data_json (data : OutputDocument) : json :=
  JDict [
    ("generated", JStr (generated data));
    ("spy", JDict (series_json (spy_dates data) (spy_returns data)));
    ("tickers",
      JDict ((λ kv, (kv.1,
                JDict ([("name", JStr (te_name kv.2));
                        ("sector", JStr (te_sector kv.2))]
                       ++ series_json (te_dates kv.2) (te_returns kv.2))))
             <$> tickers data));
    ("correlations", JDict ((λ kv, (kv.1, JFloat kv.2)) <$> correlations data))
  ].

Definition outpath : string := "portfolio_data.json".

(** [main], from the check of the fetched table on (lines 117-198).
    [stdout] is what is printed from there on: the two lines printed
    before the download (lines 102 and 106) precede it. *)
Definition main (df : PriceTable) (now : datetime) : Run :=
  match transform df now with
  | (out, Exit code) =>
      {| stdout := out; exit_code := code; written := None |}
  | (out, Completed data) =>
      let text := json_dumps (data_json data) in
      let size_kb := div_half_even (Z.of_nat (String.length text)) 1024 in
      {| stdout :=
           out ++ [nl +:+ "Saved " +:+ pretty (length (tickers data))
                     +:+ " tickers + " +:+ pretty (length (correlations data))
                     +:+ " correlations to " +:+ outpath
                     +:+ " (" +:+ pretty size_kb +:+ " KB)" +:+ nl];
         exit_code := 0;
         written := Some (outpath, text) |}
  end.

End Job.

(** ** Vocabulary of the properties *)

(** The non-missing closing prices of a symbol, when the table has its
    column. *)
Definition close_of (df : PriceTable) (symbol : string) : option Series :=
  (λ col, dropna (zip (df_index df) col)) <$> df_columns df !! ("Close", symbol).

(** A symbol with at least 24 non-missing monthly closing prices. *)
Definition eligible (df : PriceTable) (symbol : string) : bool :=
  match close_of df symbol with
  | Some close => 24 <=? length close
  | None => false
  end.

(** The return series of a symbol. *)
Definition ret_of (df : PriceTable) (symbol : string) : Series :=
  pct_returns (default [] (close_of df symbol)).

(** The entry of a symbol in [tickers]. *)
Definition entry_of (df : PriceTable) (symbol : string) : TickerEntry :=
  let info := default (EmptyString, EmptyString) (dict_get symbol TICKERS) in
  {| te_name := info.1; te_sector := info.2;
     te_dates := month_labels (ret_of df symbol);
     te_returns := rounded_returns (ret_of df symbol) |}.

(** What the loop prints after the name of a symbol. *)
Definition ticker_report (df : PriceTable) (symbol : string) : string :=
  match close_of df symbol with
  | None => "NOT IN DATA" +:+ nl
  | Some close =>
      if length close <? 24
      then "only " +:+ pretty (length close) +:+ " months, skipping" +:+ nl
      else pretty (length (rounded_returns (pct_returns close))) +:+ " months" +:+ nl
  end.

(** The symbols that end up in [returns_dict], in registry order. *)
Definition valid_of (df : PriceTable) : list string :=
  filter (λ t, eligible df t = true) ticker_list.

(** Conditional assignments in a loop: [ins f acc x] is one iteration
    that sets the key and value that [f x] proposes, if any. *)
Definition ins {A V} (f : A → option (string * V)) (acc : dict V) (x : A)
    : dict V :=
  match f x with
  | Some kv => dict_set kv.1 kv.2 acc
  | None => acc
  end.

(** The number of commas in a string. *)
Fixpoint commas (s : string) : nat :=
  match s with
  | EmptyString => 0
  | String c s' => (if Ascii.eqb c (Ascii.ascii_of_nat 44) then 1 else 0) + commas s'
  end.

(** A float in the closed interval from -1 to 1 (so neither NaN nor
    infinite). *)
Definition in_unit (v : float) : bool := ((-1 <=? v) && (v <=? 1))%float.

(** The value of a series at a label, NaN where the label is missing:
    one cell of the series after [reindex]. *)
Definition cell (s : Series) (t : datetime) : float :=
  default nan (s_lookup t s).

(** Both observations of a pair are present, that is, not NaN. *)
Definition both_present (p : float * float) : Prop :=
  is_nan p.1 = false ∧ is_nan p.2 = false.

(** The dict [returns_dict] after the loop over the registry. *)
Definition returns_dict_of (df : PriceTable) : dict Series :=
  (λ t, (t, ret_of df t)) <$> valid_of df.

(** The observations that a correlation between two symbols rests on:
    the returns of the periods present in both return series. *)
Definition overlap (df : PriceTable) (t1 t2 : string) : list (float * float) :=
  inner_join (ret_of df t1) (ret_of df t2).

(** The entry that a pair of symbols contributes to [correlations], if
    any: the rounded coefficient under the key of the pair, unless the
    coefficient is NaN. *)
Definition emitted (key : string) (coefficient : float)
    : option (string * float) :=
  if notna coefficient then Some (key, py_round coefficient 3) else None.

Section Vocabulary.
Variable frame_pearson series_pearson : list (float * float) → float.

(** What one iteration of the inner loop of lines 169-174 proposes for
    [correlations]. *)
Definition pair_candidate (df : PriceTable)
    (it : (nat * string) * (nat * string)) : option (string * float) :=
  if it.1.1 <? it.2.1
  then emitted (pair_key it.1.2 it.2.2)
         (frame_pearson (overlap df it.1.2 it.2.2))
  else None.

(** What one iteration of the loop of lines 179-184 proposes. *)
Definition spy_candidate (df : PriceTable) (ticker : string)
    : option (string * float) :=
  if 12 <? length (overlap df "SPY" ticker)
  then emitted (pair_key "SPY" ticker)
         (series_pearson (overlap df "SPY" ticker))
  else None.

(** The dict [data] of a run that reaches line 186. *)
Definition document (df : PriceTable) (now : datetime) : OutputDocument :=
  {| generated := isoformat_date now;
     spy_dates := month_labels (ret_of df "SPY");
     spy_returns := rounded_returns (ret_of df "SPY");
     tickers := (λ t, (t, entry_of df t)) <$> valid_of df;
     correlations :=
       foldl (spy_correlation series_pearson (ret_of df "SPY") (returns_dict_of df))
         (pair_correlations (valid_of df)
            (DataFrame_corr frame_pearson (pd_DataFrame (returns_dict_of df))))
         (valid_of df) |}.

(** The text that such a run has printed by then. *)
Definition progress (df : PriceTable) : list string :=
  ["  Processing SPY ... ";
   pretty (length (rounded_returns (ret_of df "SPY"))) +:+ " months" +:+ nl]
  ++ (ticker_list ≫= (λ t, ["  " +:+ t +:+ " ... "; ticker_report df t]))
  ++ ["  Computing correlation matrix...";
      " " +:+ pretty (length (pair_correlations (valid_of df)
            (DataFrame_corr frame_pearson (pd_DataFrame (returns_dict_of df)))))
          +:+ " pairs" +:+ nl].

(** An entry of [correlations] for two symbols of the registry: the
    first precedes the second among the valid symbols, and the value is
    the rounded coefficient over their overlap. *)
Definition pair_entry (df : PriceTable) (k : string) (v : float) : Prop :=
  ∃ i j t1 t2,
    valid_of df !! i = Some t1 ∧ valid_of df !! j = Some t2 ∧ i < j ∧
    k = pair_key t1 t2 ∧
    is_nan (frame_pearson (overlap df t1 t2)) = false ∧
    v = py_round (frame_pearson (overlap df t1 t2)) 3.

(** An entry of [correlations] for the benchmark and a symbol. *)
Definition spy_entry (df : PriceTable) (k : string) (v : float) : Prop :=
  ∃ t,
    t ∈ valid_of df ∧ k = pair_key "SPY" t ∧
    12 < length (overlap df "SPY" t) ∧
    is_nan (series_pearson (overlap df "SPY" t)) = false ∧
    v = py_round (series_pearson (overlap df "SPY" t)) 3.
End Vocabulary.

(** The entry of the output document for a symbol whose series is
    retained: the benchmark's two arrays, or those of a symbol in
    [tickers]. *)
Definition retained (data : OutputDocument) (symbol : string)
    (dates : list string) (returns : list float) : Prop :=
  (symbol = "SPY" ∧ dates = spy_dates data ∧ returns = spy_returns data) ∨
  (∃ e, dict_get symbol (tickers data) = Some e ∧
        dates = te_dates e ∧ returns = te_returns e).

(** ** A reference kernel and sample tables *)

(** A float from a natural number. *)
Definition float_of_nat (n : nat) : float :=
  of_uint63 (Uint63.of_Z (Z.of_nat n)).

Definition fsum (l : list float) : float := foldl PrimFloat.add 0%float l.

(** Clipping to the interval from -1 to 1, as the library kernels do. *)
Definition clip (v : float) : float :=
  if (1 <? v)%float then 1%float
  else if (v <? -1)%float then (-1)%float
  else v.

(** Modelled from the spec: the routines of pandas and numpy that
    compute a coefficient are library code outside the repository.  The
    "Pearson correlation" of paired observations is the textbook
    coefficient: the sum of the products of the deviations from the two
    means, over the square root of the product of the two sums of
    squared deviations, clipped to the interval from -1 to 1; NaN when a
    variance vanishes or there is no observation.  It instantiates the
    kernels in the examples. *)
Definition pearson_ref (obs : list (float * float)) : float :=
  let n := float_of_nat (length obs) in
  let mx := (fsum obs.*1 / n)%float in
  let my := (fsum obs.*2 / n)%float in
  let sxy := fsum ((λ p, (p.1 - mx) * (p.2 - my))%float <$> obs) in
  let sxx := fsum ((λ p, (p.1 - mx) * (p.1 - mx))%float <$> obs) in
  let syy := fsum ((λ p, (p.2 - my) * (p.2 - my))%float <$> obs) in
  let d := PrimFloat.sqrt (sxx * syy)%float in
  if (d =? 0)%float then nan else clip (sxy / d)%float.

(** An exact rendering of a float, standing in for [repr] in the
    examples: sign, mantissa and binary exponent. *)
Definition dyadic_repr (x : float) : string :=
  match Prim2SF x with
  | S754_finite s m e =>
      (if s then "-" else EmptyString) +:+ pretty (Zpos m) +:+ "*2**" +:+ pretty e
  | S754_zero s => if s then "-0.0" else "0.0"
  | _ => "?"
  end.

(** The first day of the [i]-th month from January 2020 on. *)
Definition month_start (i : nat) : datetime :=
  {| year := 2020 + i / 12; month := 1 + i mod 12; day := 1 |}.

(** A table of 26 months: the benchmark and "AAPL" in full, "MSFT"
    without its first two months (24 prices), "V" with its last ten
    months only; no other registry symbol has a column. *)
Definition sample_df : PriceTable :=
  {| df_index := month_start <$> seq 0 26;
     df_columns := list_to_map [
       (("Close", "SPY"), (λ i, float_of_nat (100 + i)) <$> seq 0 26);
       (("Close", "AAPL"), (λ i, float_of_nat (50 + (i * i) mod 7)) <$> seq 0 26);
       (("Close", "MSFT"),
         (λ i, if i <? 2 then nan else float_of_nat (80 + (i * 3) mod 5)) <$> seq 0 26);
       (("Close", "V"),
         (λ i, if i <? 16 then nan else float_of_nat (10 + i)) <$> seq 0 26);
       (("Open", "SPY"), (λ i, float_of_nat (100 + i)) <$> seq 0 26)
     ];
     df_index_increasing := eq_refl |}.

(** A table in which the benchmark closes at zero in two consecutive
    months. *)
Definition zero_price_df : PriceTable :=
  {| df_index := month_start <$> seq 0 4;
     df_columns := list_to_map [
       (("Close", "SPY"), [100; 0; 0; 50]%float)
     ];
     df_index_increasing := eq_refl |}.

(** A table that has rows but no "Close" column for the benchmark. *)
Definition no_spy_df : PriceTable :=
  {| df_index := month_start <$> seq 0 4;
     df_columns := list_to_map [
       (("Close", "AAPL"), [100; 101; 102; 103]%float)
     ];
     df_index_increasing := eq_refl |}.

Definition sample_now : datetime := {| year := 2026; month := 11; day := 4 |}.

(** ** Vocabulary of the further properties *)

(** The pairs of a list whose first component stands before the second:
    the iterations of lines 168-170 that pass the test [i < j]. *)
Fixpoint upper_pairs {A} (l : list A) : list (A * A) :=
  match l with
  | [] => []
  | x :: l' => (pair x <$> l') ++ upper_pairs l'
  end.

(** A table over the months of [sample_df] with the same columns for
    "AAPL" and "MSFT", other benchmark prices, a full column for "GOOGL"
    and none for "V". *)
Definition sample_df_other : PriceTable :=
  {| df_index := month_start <$> seq 0 26;
     df_columns := list_to_map [
       (("Close", "SPY"), (λ i, float_of_nat (200 + (i * 5) mod 11)) <$> seq 0 26);
       (("Close", "AAPL"), (λ i, float_of_nat (50 + (i * i) mod 7)) <$> seq 0 26);
       (("Close", "GOOGL"), (λ i, float_of_nat (30 + (i * 2) mod 9)) <$> seq 0 26);
       (("Close", "MSFT"),
         (λ i, if i <? 2 then nan else float_of_nat (80 + (i * 3) mod 5)) <$> seq 0 26)
     ];
     df_index_increasing := eq_refl |}.

(** Both values of an observation are finite. *)
Definition both_finite (p : float * float) : Prop :=
  is_finite p.1 = true ∧ is_finite p.2 = true.


(** The kernel of [DataFrame.corr] as pandas has it: an observation with
    an infinite value is passed over, as a row with a missing value is,
    and the coefficient is that of the observations left. *)
Definition nancorr (obs : list (float * float)) : float :=
  pearson_ref (filter both_finite obs).

(** The months of [sample_df] with a price of zero for "AAPL" in the
    eleventh month: its return of the twelfth month is infinite. *)
Definition infinite_return_df : PriceTable :=
  {| df_index := month_start <$> seq 0 26;
     df_columns := list_to_map [
       (("Close", "SPY"), (λ i, float_of_nat (100 + i)) <$> seq 0 26);
       (("Close", "AAPL"),
         (λ i, if i =? 10 then 0%float else float_of_nat (50 + (i * i) mod 7))
           <$> seq 0 26);
       (("Close", "MSFT"),
         (λ i, if i <? 2 then nan else float_of_nat (80 + (i * 3) mod 5)) <$> seq 0 26)
     ];
     df_index_increasing := eq_refl |}.

(** * Facts *)

(** ** Dicts *)

Section dict_facts.
Context {V : Type}.
Implicit Types (d : dict V) (k : string) (v : V).

Lemma dict_get_set k k' v d :
  dict_get k (dict_set k' v d) =
    if String.eqb k k' then Some v else dict_get k d.
Proof.
  induction d as [|[k0 v0] d IH]; simpl.
  - by destruct (String.eqb_spec k k').
  - destruct (String.eqb_spec k' k0) as [->|Hne]; simpl.
    + by destruct (String.eqb_spec k k0).
    + rewrite IH.
      destruct (String.eqb_spec k k0) as [->|]; [|done].
      by destruct (String.eqb_spec k0 k').
Qed.

Lemma dict_get_is_Some k d : is_Some (dict_get k d) ↔ k ∈ keys d.
Proof.
  unfold keys. induction d as [|[k0 v0] d IH]; simpl.
  - split; [by intros [? ?]|by intros ?%elem_of_nil].
  - rewrite elem_of_cons. destruct (String.eqb_spec k k0) as [->|Hne].
    + split; eauto.
    + rewrite IH. split; [by right|by intros [?|?]].
Qed.

Lemma dict_get_None k d : dict_get k d = None ↔ k ∉ keys d.
Proof. rewrite <-dict_get_is_Some, eq_None_not_Some. done. Qed.

Lemma dict_get_elem_of k v d : dict_get k d = Some v → (k, v) ∈ d.
Proof.
  induction d as [|[k0 v0] d IH]; simpl; [done|].
  destruct (String.eqb_spec k k0) as [->|Hne].
  - intros [= ->]. left.
  - intros ?. right. auto.
Qed.

Lemma dict_set_fresh k v d : k ∉ keys d → dict_set k v d = d ++ [(k, v)].
Proof.
  unfold keys. induction d as [|[k0 v0] d IH]; simpl; [done|].
  rewrite not_elem_of_cons. intros [Hne Hnin].
  destruct (String.eqb_spec k k0); [done|]. by rewrite IH.
Qed.

Lemma dict_get_app_fresh k d d' :
  k ∉ keys d → dict_get k (d ++ d') = dict_get k d'.
Proof.
  unfold keys. induction d as [|[k0 v0] d IH]; simpl; [done|].
  rewrite not_elem_of_cons. intros [Hne Hnin].
  destruct (String.eqb_spec k k0); [done|]. by apply IH.
Qed.

Lemma dict_get_fmap_keys {A} (f : string → A → V) (l : list (string * A)) k :
  dict_get k ((λ kv, (kv.1, f kv.1 kv.2)) <$> l) = f k <$> dict_get k l.
Proof.
  induction l as [|[k0 a0] l IH]; simpl; [done|].
  destruct (String.eqb_spec k k0) as [->|]; [done|]. apply IH.
Qed.

Lemma foldl_ins_sound {A} (f : A → option (string * V)) l acc k v :
  dict_get k (foldl (ins f) acc l) = Some v →
  dict_get k acc = Some v ∨ ∃ x, x ∈ l ∧ f x = Some (k, v).
Proof.
  revert acc. induction l as [|x l IH]; intros acc; simpl; [by left|].
  intros [Hacc|(y & Hy & Hf)]%IH.
  - unfold ins in Hacc. destruct (f x) as [[k' v']|] eqn:Hfx; [|by left].
    rewrite dict_get_set in Hacc. simpl in Hacc.
    destruct (String.eqb_spec k k') as [->|]; [|by left].
    injection Hacc as ->. right. exists x. split; [left|done].
  - right. exists y. split; [by right|done].
Qed.

Lemma foldl_ins_preserved {A} (f : A → option (string * V)) l acc k :
  (∀ x v, x ∈ l → f x ≠ Some (k, v)) →
  dict_get k (foldl (ins f) acc l) = dict_get k acc.
Proof.
  revert acc. induction l as [|x l IH]; intros acc Hno; simpl; [done|].
  rewrite IH; [|intros y v' Hy; apply Hno; by right].
  unfold ins. destruct (f x) as [[k' v']|] eqn:Hfx; [|done].
  rewrite dict_get_set. simpl.
  destruct (String.eqb_spec k k') as [->|]; [|done].
  exfalso. apply (Hno x v'); [left|done].
Qed.

Lemma foldl_ins_complete {A} (f : A → option (string * V)) l acc k v :
  (∀ y v', y ∈ l → f y = Some (k, v') → v' = v) →
  dict_get k acc = Some v ∨ (∃ x, x ∈ l ∧ f x = Some (k, v)) →
  dict_get k (foldl (ins f) acc l) = Some v.
Proof.
  revert acc. induction l as [|y l IH]; intros acc Huniq Hsrc; simpl.
  { destruct Hsrc as [?|(x & []%elem_of_nil & _)]. done. }
  apply IH; [intros z v' ??; apply (Huniq z); [by right|done]|].
  unfold ins. destruct (f y) as [[k' v']|] eqn:Hfy; simpl.
  - rewrite dict_get_set. destruct (String.eqb_spec k k') as [->|Hne].
    + left. f_equal. apply (Huniq y); [left|done].
    + destruct Hsrc as [?|(x & [->|Hx]%elem_of_cons & Hfx)]; [by left|congruence|].
      right. by exists x.
  - destruct Hsrc as [?|(x & [->|Hx]%elem_of_cons & Hfx)]; [by left|congruence|].
    right. by exists x.
Qed.
End dict_facts.

(** A nested loop is a loop over the pairs. *)
Lemma foldl_nested {A B C} (g : A → B → C → A) (l1 : list B) (l2 : list C) a :
  foldl (λ a1 x, foldl (λ a2 y, g a2 x y) a1 l2) a l1 =
  foldl (λ a0 xy, g a0 xy.1 xy.2) a (x ← l1; (pair x <$> l2)).
Proof.
  revert a. induction l1 as [|x l1 IH]; intros a; simpl; [done|].
  rewrite foldl_app, <-IH. f_equal.
  clear IH. generalize a.
  induction l2 as [|y l2 IH2]; intros a'; simpl; [done|]. apply IH2.
Qed.

(** ** The loop over the registry *)

Lemma getitem2_close df t :
  getitem2 df "Close" t =
    match df_columns df !! ("Close", t) with
    | Some col => inr (zip (df_index df) col)
    | None => inl (KeyError (if existsb (λ kv, String.eqb kv.1.1 "Close")
                                  (map_to_list (df_columns df))
                             then t else "Close"))
    end.
Proof.
  unfold getitem2. destruct (df_columns df !! ("Close", t)); [done|].
  by destruct (existsb _ _).
Qed.

Lemma process_ticker_spec df st t :
  is_Some (dict_get t TICKERS) →
  process_ticker df st t =
    {| returns_dict :=
         if eligible df t then dict_set t (ret_of df t) (returns_dict st)
         else returns_dict st;
       ticker_data :=
         if eligible df t then dict_set t (entry_of df t) (ticker_data st)
         else ticker_data st;
       printed := printed st ++ ["  " +:+ t +:+ " ... "; ticker_report df t] |}.
Proof.
  intros [[name sector] Hreg].
  unfold process_ticker, eligible, entry_of, ticker_report, ret_of, close_of.
  rewrite getitem2_close, Hreg.
  destruct (df_columns df !! ("Close", t)) as [col|];
    cbn [fmap option_fmap option_map default id fst snd].
  - rewrite Nat.leb_antisym.
    destruct (length (dropna (zip (df_index df) col)) <? 24); cbn [negb];
      by rewrite <-app_assoc.
  - by rewrite <-app_assoc.
Qed.

Lemma process_fold df l st :
  NoDup l →
  (∀ t, t ∈ l → is_Some (dict_get t TICKERS)) →
  (∀ t, t ∈ l → (t ∉ keys (returns_dict st)) ∧ (t ∉ keys (ticker_data st))) →
  returns_dict (foldl (process_ticker df) st l) =
    returns_dict st ++
      ((λ t, (t, ret_of df t)) <$> filter (λ t, eligible df t = true) l) ∧
  ticker_data (foldl (process_ticker df) st l) =
    ticker_data st ++
      ((λ t, (t, entry_of df t)) <$> filter (λ t, eligible df t = true) l) ∧
  printed (foldl (process_ticker df) st l) =
    printed st ++ (l ≫= (λ t, ["  " +:+ t +:+ " ... "; ticker_report df t])).
Proof.
  revert st. induction l as [|t l IH]; intros st Hnd Hreg Hfresh; cbn [foldl].
  { by rewrite !app_nil_r. }
  apply NoDup_cons in Hnd as [Hnin Hnd].
  destruct (Hfresh t) as [Hr Hd]; [left|].
  assert (Hspec := process_ticker_spec df st t (Hreg t ltac:(left))).
  destruct (IH (process_ticker df st t)) as (E1 & E2 & E3); [done| | |].
  { intros t' ?. apply Hreg. by right. }
  { intros t' Ht'. rewrite Hspec. cbn [returns_dict ticker_data].
    destruct (Hfresh t') as [? ?]; [by right|].
    assert (t' ≠ t) by (intros ->; done).
    destruct (eligible df t); [|done].
    rewrite !dict_set_fresh by done. unfold keys.
    rewrite !fmap_app, !elem_of_app; simpl.
    rewrite !list_elem_of_singleton. by split; intros [?|?]. }
  rewrite E1, E2, E3, Hspec. cbn [returns_dict ticker_data printed].
  rewrite filter_cons. cbn [mbind list_bind].
  destruct (eligible df t) eqn:Hel.
  - rewrite decide_True by done. rewrite !dict_set_fresh by done.
    rewrite !fmap_cons, <-!app_assoc. done.
  - rewrite decide_False by done. by rewrite <-!app_assoc.
Qed.

Lemma ticker_list_NoDup : NoDup ticker_list.
Proof. apply (bool_decide_unpack _). by vm_compute. Qed.

Lemma ticker_list_registered t : t ∈ ticker_list → is_Some (dict_get t TICKERS).
Proof. intros ?. by apply dict_get_is_Some. Qed.

Lemma ticker_list_commas t : t ∈ ticker_list → commas t = 0.
Proof.
  revert t. apply Forall_forall. apply (bool_decide_unpack _). by vm_compute.
Qed.

Lemma SPY_not_registered : "SPY" ∉ ticker_list.
Proof. apply (bool_decide_unpack _). by vm_compute. Qed.

(** ** Floats *)

Lemma is_nan_Prim2SF x : is_nan x = true ↔ Prim2SF x = S754_nan.
Proof.
  split; intros H.
  - unfold Prim2SF. by rewrite H.
  - unfold is_nan. by rewrite FloatAxioms.eqb_spec, H.
Qed.

Lemma not_nan_Prim2SF x : is_nan x = false ↔ Prim2SF x ≠ S754_nan.
Proof. rewrite <-is_nan_Prim2SF. by destruct (is_nan x). Qed.

Lemma shr_m_of_loc m l : shr_m (shr_record_of_loc m l) = m.
Proof. by destruct l as [|[]]. Qed.

Lemma shr_1_nonneg r : (0 ≤ shr_m r)%Z → (0 ≤ shr_m (shr_1 r))%Z.
Proof. destruct r as [[|[p|p|]|[p|p|]] b s]; simpl; lia. Qed.

Lemma iter_shr_1_nonneg p r :
  (0 ≤ shr_m r)%Z → (0 ≤ shr_m (SpecFloat.iter_pos shr_1 p r))%Z.
Proof.
  revert r. induction p as [p IH|p IH|]; intros r Hr; simpl;
    auto using shr_1_nonneg.
Qed.

Lemma shr_fexp_nonneg m e l :
  (0 ≤ m)%Z → (0 ≤ shr_m (shr_fexp prec emax m e l).1)%Z.
Proof.
  intros Hm. unfold shr_fexp, shr.
  destruct (_ - e)%Z; simpl; rewrite ?shr_m_of_loc; [done| |done].
  apply iter_shr_1_nonneg. by rewrite shr_m_of_loc.
Qed.

Lemma round_nearest_even_nonneg m l :
  (0 ≤ m)%Z → (0 ≤ round_nearest_even m l)%Z.
Proof. destruct l as [|[]]; simpl; [done| |done|lia]. destruct (Z.even m); lia. Qed.

(** Rounding a non-negative mantissa never produces NaN. *)
Lemma binary_round_aux_not_nan s m e l :
  (0 ≤ m)%Z → binary_round_aux prec emax s m e l ≠ S754_nan.
Proof.
  intros Hm. unfold binary_round_aux.
  pose proof (shr_fexp_nonneg m e l Hm) as H1.
  destruct (shr_fexp prec emax m e l) as [mrs' e']. simpl in H1.
  pose proof (shr_fexp_nonneg _ e' loc_Exact
                (round_nearest_even_nonneg _ (loc_of_shr_record mrs') H1)) as H2.
  destruct (shr_fexp prec emax _ e' loc_Exact) as [mrs'' e'']. simpl in H2.
  destruct (shr_m mrs''); [done| |lia].
  by destruct (_ <=? _)%Z.
Qed.

(** Scaling by 100 keeps a value that is not NaN from becoming NaN. *)
Lemma is_nan_mul_100 x : is_nan (x * 100)%float = is_nan x.
Proof.
  destruct (is_nan x) eqn:Hx.
  - apply is_nan_Prim2SF. apply is_nan_Prim2SF in Hx.
    by rewrite mul_spec, Hx.
  - apply not_nan_Prim2SF. apply not_nan_Prim2SF in Hx.
    rewrite mul_spec.
    change (Prim2SF 100%float) with (S754_finite false 7036874417766400 (-46)).
    destruct (Prim2SF x) as [| | |s m e]; [done..|].
    apply binary_round_aux_not_nan. done.
Qed.

Lemma SFcompare_antisym x y :
  SFcompare y x = CompOpp <$> SFcompare x y.
Proof.
  destruct x as [[]|[]| |[] m1 e1], y as [[]|[]| |[] m2 e2]; try done; simpl;
    rewrite (Z.compare_antisym e1 e2); destruct (e1 ?= e2)%Z; simpl; try done.
  - f_equal. rewrite CompOpp_involutive. apply (Pos.compare_cont_antisym m2 m1 Eq).
  - f_equal. symmetry. apply (Pos.compare_cont_antisym m1 m2 Eq).
Qed.

Lemma SFcompare_None x y :
  SFcompare x y = None → x = S754_nan ∨ y = S754_nan.
Proof.
  destruct x as [[]|[]| |[] m1 e1], y as [[]|[]| |[] m2 e2]; simpl; by auto.
Qed.

(** A comparison that fails on values that are not NaN gives the
    converse order. *)
Lemma ltb_false_leb x y :
  is_nan x = false → is_nan y = false → (x <? y)%float = false →
  (y <=? x)%float = true.
Proof.
  rewrite !not_nan_Prim2SF, ltb_spec, leb_spec. unfold SFltb, SFleb.
  intros Hx Hy. rewrite (SFcompare_antisym (Prim2SF x) (Prim2SF y)).
  destruct (SFcompare (Prim2SF x) (Prim2SF y)) as [[]|] eqn:Hc; simpl; try done.
  by destruct (SFcompare_None _ _ Hc).
Qed.

Lemma digits2_pos_bound m : (Zpos m < 2 ^ Zpos (digits2_pos m))%Z.
Proof.
  induction m as [m IH|m IH|]; cbn [digits2_pos]; [| |done];
    rewrite Pos2Z.inj_succ, Z.pow_succ_r by lia; lia.
Qed.

(** The mantissa and exponent of a finite float of magnitude at most
    one. *)
Lemma finite_le_one (x : float) s m e :
  Prim2SF x = S754_finite s m e →
  (-1 <=? x)%float = true → (x <=? 1)%float = true →
  (e < 0)%Z ∧ (Zpos m ≤ 2 ^ (- e))%Z.
Proof.
  intros Hx Hlo Hhi.
  pose proof (Prim2SF_valid x) as Hv. rewrite Hx in Hv. 
  simpl in Hv.
  apply andb_prop in Hv as [Hcan _]. unfold canonical_mantissa, fexp in Hcan.
  apply Z.eqb_eq in Hcan.
  pose proof (digits2_pos_bound m) as Hd.
  assert (Zpos (digits2_pos m) ≤ 53)%Z as Hd53 by (unfold prec in Hcan; lia).
  assert (Zpos m < 2 ^ 53)%Z as Hm by (eapply Z.lt_le_trans; [done|]; apply Z.pow_le_mono_r; lia).
  rewrite leb_spec, Hx in Hlo, Hhi.
  change (Prim2SF 1%float) with (S754_finite false 4503599627370496 (-52)) in Hhi.
  change (Prim2SF (-1)%float) with (S754_finite true 4503599627370496 (-52)) in Hlo.
  unfold SFleb, SFcompare in Hlo, Hhi.
  assert ((e < -52)%Z ∨ (e = -52 ∧ Zpos m ≤ 4503599627370496)%Z) as Hcases.
  { destruct s.
    - destruct (Z.compare_spec (-52) e) as [<-| |]; [|done|lia].
      right. split; [done|].
      rewrite Pos.compare_cont_spec in Hlo. cbn [Pos.switch_Eq] in Hlo.
      rewrite Pos2Z.inj_compare in Hlo.
      destruct (Z.compare_spec 4503599627370496 (Z.pos m)) as [H|H|H];
        [rewrite <-H; done|discriminate Hlo|by apply Z.lt_le_incl].
    - destruct (Z.compare_spec e (-52)) as [->| |]; [|lia|done].
      right. split; [done|].
      rewrite Pos.compare_cont_spec in Hhi. cbn [Pos.switch_Eq] in Hhi.
      rewrite Pos2Z.inj_compare in Hhi.
      destruct (Z.compare_spec (Z.pos m) 4503599627370496) as [H|H|H];
        [rewrite H; done|by apply Z.lt_le_incl|discriminate Hhi]. }
  destruct Hcases as [He|[-> Hm52]].
  - split; [lia|]. apply Z.lt_le_incl, (Z.lt_le_trans _ _ _ Hm).
    apply Z.pow_le_mono_r; lia.
  - split; [done|]. exact Hm52.
Qed.

Lemma div_half_even_bound n d c :
  (0 < d)%Z → (0 ≤ n ≤ c * d)%Z → (0 ≤ c)%Z → (0 ≤ div_half_even n d ≤ c)%Z.
Proof.
  intros Hd Hn Hc. unfold div_half_even.
  pose proof (Z.div_mod n d ltac:(lia)) as Hdm.
  pose proof (Z.mod_pos_bound n d Hd) as Hr.
  assert (0 ≤ n / d)%Z by (apply Z.div_pos; lia).
  assert (n / d ≤ c)%Z by (apply Z.div_le_upper_bound; lia).
  assert (n / d = c → n mod d = 0)%Z by nia.
  destruct (Z.compare_spec (2 * (n mod d)) d); [|lia|].
  - destruct (Z.even (n / d)); lia.
  - assert (n / d ≠ c)%Z by lia. lia.
Qed.

(** The floats [k / 1000] for [0 <= k <= 1000], of either sign, lie in
    [[-1, 1]]. *)
Lemma decimal_to_float_unit s k :
  (0 ≤ k ≤ 1000)%Z → in_unit (decimal_to_float s k 3) = true.
Proof.
  intros Hk.
  assert (forallb (λ n, in_unit (decimal_to_float true (Z.of_nat n) 3) &&
                        in_unit (decimal_to_float false (Z.of_nat n) 3))
            (seq 0 1001) = true) as Hall by (by vm_compute).
  rewrite forallb_forall in Hall.
  specialize (Hall (Z.to_nat k)). rewrite Z2Nat.id in Hall by lia.
  apply andb_prop in Hall as [? ?]; [by destruct s|].
  apply in_seq. lia.
Qed.

(** Rounding to three decimals maps [[-1, 1]] into itself. *)
Lemma py_round_3_unit x : in_unit x = true → in_unit (py_round x 3) = true.
Proof.
  intros Hx. unfold py_round.
  destruct (Prim2SF x) as [| | |s m e] eqn:Hsf; [done..|].
  apply andb_prop in Hx as [Hlo Hhi].
  destruct (finite_le_one x s m e Hsf Hlo Hhi) as [He Hm].
  apply decimal_to_float_unit.
  rewrite (Z.max_r e 0), (Z.max_l (- e) 0) by lia. rewrite Z.pow_0_r, Z.mul_1_r.
  change (10 ^ Z.of_nat 3)%Z with 1000%Z.
  apply div_half_even_bound; [apply Z.pow_pos_nonneg; lia|lia|lia].
Qed.

Lemma in_unit_not_nan v : in_unit v = true → is_nan v = false.
Proof.
  intros [H _]%andb_prop. rewrite leb_spec in H.
  apply not_nan_Prim2SF. intros Hn. by rewrite Hn in H.
Qed.

(** A positive finite float is a finite spec float of positive sign. *)
Lemma positive_finite_Prim2SF p :
  (0 <? p)%float = true → (p <? infinity)%float = true →
  ∃ m e, Prim2SF p = S754_finite false m e.
Proof.
  rewrite !ltb_spec.
  change (Prim2SF 0%float) with (S754_zero false).
  change (Prim2SF infinity) with (S754_infinity false).
  destruct (Prim2SF p) as [[]|[]| |[] m e]; try done. by eauto.
Qed.

Lemma SFdiv_core_nonneg m1 e1 m2 e2 :
  (0 ≤ (SFdiv_core_binary prec emax (Zpos m1) e1 (Zpos m2) e2).1.1)%Z.
Proof.
  unfold SFdiv_core_binary.
  set (s := (e1 - e2 - _)%Z). set (m' := match s with Z0 => _ | _ => _ end).
  assert (0 ≤ m')%Z as Hm'.
  { subst m'. destruct s; [done| |done]. apply Z.shiftl_nonneg. done. }
  pose proof (Z.div_eucl_eq m' (Zpos m2) ltac:(done)) as Heq.
  pose proof (Z.mod_pos_bound m' (Zpos m2) ltac:(done)) as Hmod.
  unfold Z.modulo in Hmod.
  destruct (Z.div_eucl m' (Zpos m2)) as [q r]. simpl. nia.
Qed.

(** The relative change between two positive finite prices is never
    NaN. *)
Lemma change_of_positive_prices p q :
  (0 <? p)%float = true → (p <? infinity)%float = true →
  (0 <? q)%float = true → (q <? infinity)%float = true →
  is_nan (q / p - 1)%float = false.
Proof.
  intros Hp1 Hp2 Hq1 Hq2.
  destruct (positive_finite_Prim2SF p Hp1 Hp2) as (mp & ep & Hp).
  destruct (positive_finite_Prim2SF q Hq1 Hq2) as (mq & eq & Hq).
  apply not_nan_Prim2SF. rewrite sub_spec, div_spec, Hp, Hq.
  change (Prim2SF 1%float) with (S754_finite false 4503599627370496 (-52)).
  unfold SF64div, SFdiv.
  pose proof (SFdiv_core_nonneg mq eq mp ep) as Hnn.
  destruct (SFdiv_core_binary prec emax (Zpos mq) eq (Zpos mp) ep) as [[mz ez] lz].
  simpl in Hnn.
  pose proof (binary_round_aux_not_nan (xorb false false) mz ez lz Hnn) as Hr.
  destruct (binary_round_aux prec emax (xorb false false) mz ez lz)
    as [sz|sz| |sz mr er]; [done|done|done|].
  unfold SF64sub, SFsub, binary_normalize.
  destruct (_ - _)%Z; [done|..]; unfold binary_round;
    destruct (shl_align _ _ _); by apply binary_round_aux_not_nan.
Qed.

Lemma positive_prices_changes_defined (close : Series) :
  Forall (λ p, (0 <? p.2)%float = true ∧ (p.2 <? infinity)%float = true) close →
  ∀ t p q, close !! t = Some p → close !! S t = Some q →
           is_nan (q.2 / p.2 - 1)%float = false.
Proof.
  rewrite Forall_lookup. intros Hpos t p q Hp Hq.
  destruct (Hpos _ _ Hp) as [? ?], (Hpos _ _ Hq) as [? ?].
  by apply change_of_positive_prices.
Qed.

(** ** Chronological order and sorted indexes *)

Global Instance dt_lt_trans : Transitive dt_lt.
Proof. intros [] [] []; unfold dt_lt; simpl; lia. Qed.

Global Instance dt_le_trans : Transitive dt_le.
Proof. intros [] [] []; unfold dt_le; simpl; lia. Qed.

Global Instance dt_le_total : Total dt_le.
Proof. intros [] []; unfold dt_le; simpl; lia. Qed.

Lemma dt_lt_irrefl a : ¬ dt_lt a a.
Proof. destruct a; unfold dt_lt; simpl; lia. Qed.

Lemma dt_le_lt a b : dt_le a b → a ≠ b → dt_lt a b.
Proof.
  destruct a as [y1 m1 d1], b as [y2 m2 d2]; unfold dt_le, dt_lt; simpl.
  intros Hle Hne.
  destruct (decide (y1 = y2 ∧ m1 = m2 ∧ d1 = d2)) as [(-> & -> & ->)|]; [done|lia].
Qed.

Lemma increasing_sorted l : increasing l = true → StronglySorted dt_lt l.
Proof.
  intros H. apply Sorted_StronglySorted; [apply _|].
  induction l as [|a [|b l] IH]; [constructor|by repeat constructor|].
  cbn [increasing] in H. apply andb_prop in H as [Hab Hrest].
  constructor; [by apply IH|]. constructor. by apply bool_decide_eq_true in Hab.
Qed.

Lemma StronglySorted_sublist {A} (R : relation A) l1 l2 :
  l1 `sublist_of` l2 → StronglySorted R l2 → StronglySorted R l1.
Proof.
  induction 1 as [|x l1 l2 Hsub IH|x l1 l2 Hsub IH]; [done| |];
    rewrite ?StronglySorted_cons; intros [Hall Hs]; [|by auto].
  split; [|by auto]. rewrite Forall_forall in Hall |- *.
  intros y Hy. apply Hall. by eapply elem_of_sublist.
Qed.

Lemma sorted_NoDup l : StronglySorted dt_lt l → NoDup l.
Proof.
  induction 1 as [|a l Hs IH Hall]; constructor; [|done].
  intros Hin. rewrite Forall_forall in Hall.
  by apply (dt_lt_irrefl a), Hall.
Qed.

(** Two strictly increasing lists with the same elements are equal. *)
Lemma sorted_ext l1 l2 :
  StronglySorted dt_lt l1 → StronglySorted dt_lt l2 →
  (∀ t, t ∈ l1 ↔ t ∈ l2) → l1 = l2.
Proof.
  intros H1 H2 Hel. apply (StronglySorted_unique_strong dt_lt); [|done..|].
  - intros a b _ _ Hab Hba. destruct (dt_lt_irrefl a). by transitivity b.
  - apply NoDup_Permutation; auto using sorted_NoDup.
Qed.

Lemma elem_of_union_index idxs t :
  t ∈ union_index idxs ↔ ∃ idx, idx ∈ idxs ∧ t ∈ idx.
Proof.
  unfold union_index. rewrite merge_sort_Permutation, elem_of_remove_dups.
  rewrite list_elem_of_In, in_concat. setoid_rewrite <-list_elem_of_In. done.
Qed.

Lemma union_index_sorted idxs : StronglySorted dt_lt (union_index idxs).
Proof.
  unfold union_index.
  assert (NoDup (merge_sort dt_le (remove_dups (concat idxs)))) as Hnd.
  { rewrite merge_sort_Permutation. apply NoDup_remove_dups. }
  pose proof (StronglySorted_merge_sort dt_le (remove_dups (concat idxs))) as Hs.
  induction Hs as [|a l Hs IH Hall]; [constructor|].
  apply NoDup_cons in Hnd as [Hnin Hnd]. constructor; [by apply IH|].
  rewrite Forall_forall in Hall |- *. intros b Hb.
  apply dt_le_lt; [by apply Hall|]. by intros ->.
Qed.

(** ** Series *)

Lemma s_index_smul s c : s_index (smul s c) = s_index s.
Proof. unfold s_index, smul. rewrite <-list_fmap_compose. done. Qed.

Lemma s_index_pct_from prev s : s_index (pct_from prev s) = s_index s.
Proof.
  revert prev. induction s as [|[t p] s IH]; intros prev; [done|].
  unfold s_index in *. simpl. f_equal. apply IH.
Qed.

Lemma s_index_pct_change s : s_index (pct_change s) = s_index s.
Proof.
  destruct s as [|[t p] s]; [done|]. unfold s_index. simpl. f_equal.
  apply s_index_pct_from.
Qed.

Lemma s_index_dropna_sublist s : s_index (dropna s) `sublist_of` s_index s.
Proof.
  unfold s_index, dropna. induction s as [|[t p] s IH]; [done|].
  cbn [filter list_filter]. case_decide; simpl; by constructor.
Qed.

Lemma s_index_zip_sublist (idx : list datetime) (col : list float) :
  s_index (zip idx col) `sublist_of` idx.
Proof.
  unfold s_index. revert col. induction idx as [|t idx IH]; intros [|p col];
    simpl; try done; [apply sublist_nil_l|by constructor].
Qed.

(** The return series of a symbol is indexed by dates of the table, in
    increasing order, and holds no NaN. *)
Lemma ret_of_sorted df t : StronglySorted dt_lt (s_index (ret_of df t)).
Proof.
  unfold ret_of, pct_returns. rewrite s_index_smul.
  eapply StronglySorted_sublist; [apply s_index_dropna_sublist|].
  rewrite s_index_pct_change. unfold close_of.
  destruct (df_columns df !! ("Close", t)) as [col|]; simpl; [|constructor].
  eapply StronglySorted_sublist; [apply s_index_dropna_sublist|].
  eapply StronglySorted_sublist; [apply s_index_zip_sublist|].
  apply increasing_sorted, df_index_increasing.
Qed.

Lemma pct_returns_not_nan close :
  Forall (λ p, is_nan p.2 = false) (pct_returns close).
Proof.
  unfold pct_returns, smul, dropna. rewrite Forall_fmap, Forall_forall.
  intros [t v] [Hv _]%list_elem_of_filter. simpl in *.
  by rewrite is_nan_mul_100.
Qed.

Lemma ret_of_not_nan df t : Forall (λ p, is_nan p.2 = false) (ret_of df t).
Proof. apply pct_returns_not_nan. Qed.

(** ** Alignment of series *)

Lemma s_lookup_is_Some s t : is_Some (s_lookup t s) ↔ t ∈ s_index s.
Proof.
  unfold s_index. induction s as [|[t' v] s IH]; simpl.
  - split; [by intros [??]|by intros ?%elem_of_nil].
  - rewrite elem_of_cons. case_decide as Heq; [by split; eauto|].
    rewrite IH. by split; [right|intros [?|?]].
Qed.

Lemma s_lookup_elem_of s t v : s_lookup t s = Some v → (t, v) ∈ s.
Proof.
  induction s as [|[t' v'] s IH]; simpl; [done|].
  case_decide as Heq; [intros [= ->]; subst; left|right; auto].
Qed.

Lemma cell_not_nan s t :
  Forall (λ p, is_nan p.2 = false) s →
  is_nan (cell s t) = false ↔ t ∈ s_index s.
Proof.
  intros Hs. rewrite <-s_lookup_is_Some. unfold cell.
  destruct (s_lookup t s) as [v|] eqn:Hl; simpl.
  - rewrite Forall_forall in Hs. split; [by eauto|intros _].
    by apply (Hs (t, v)), s_lookup_elem_of.
  - split; [done|by intros [??]].
Qed.

Lemma reindex_cells s idx : reindex s idx = cell s <$> idx.
Proof. done. Qed.

(** The complete rows of two reindexed series, whatever the index. *)
Lemma complete_pairs_reindex s1 s2 U :
  complete_pairs (reindex s1 U) (reindex s2 U) =
    (λ u, (cell s1 u, cell s2 u)) <$>
      filter (λ u, is_nan (cell s1 u) = false ∧ is_nan (cell s2 u) = false) U.
Proof.
  unfold complete_pairs. rewrite !reindex_cells.
  induction U as [|u U IH]; [done|].
  rewrite !fmap_cons. cbn [zip_with].
  destruct (decide (is_nan (cell s1 u) = false ∧ is_nan (cell s2 u) = false)).
  - rewrite !filter_cons_True by done. rewrite fmap_cons. by f_equal.
  - by rewrite !filter_cons_False by done.
Qed.

(** The inner join pairs the cells at the labels of the first series
    that the second one has too. *)
Lemma inner_join_cells s1 s2 :
  NoDup (s_index s1) →
  inner_join s1 s2 =
    (λ u, (cell s1 u, cell s2 u)) <$>
      filter (λ u, u ∈ s_index s2) (s_index s1).
Proof.
  unfold inner_join, s_index.
  induction s1 as [|[t v] s1 IH]; [done|].
  rewrite fmap_cons. cbn [fst]. intros [Hnin Hnd]%NoDup_cons.
  assert ((λ u, (cell ((t, v) :: s1) u, cell s2 u)) <$>
            filter (λ u, u ∈ s2.*1) s1.*1
          = (λ u, (cell s1 u, cell s2 u)) <$> filter (λ u, u ∈ s2.*1) s1.*1)
    as Htail.
  { apply list_fmap_ext. intros i u Hu%list_elem_of_lookup_2.
    apply list_elem_of_filter in Hu as [_ Hu].
    unfold cell. simpl. case_decide; [by subst|done]. }
  cbn [omap list_omap fst snd]. fold (omap (λ p : datetime * float, pair p.2 <$> s_lookup p.1 s2) s1).
  rewrite IH by done.
  destruct (decide (t ∈ s2.*1)) as [Hin|Hin].
  - rewrite filter_cons_True by done. rewrite fmap_cons, Htail.
    apply s_lookup_is_Some in Hin as [v2 Hv2]. rewrite Hv2. simpl.
    f_equal. unfold cell. simpl. by rewrite decide_True, Hv2.
  - rewrite filter_cons_False by done. rewrite Htail.
    destruct (s_lookup t s2) eqn:Hl; [|done].
    destruct Hin. apply s_lookup_is_Some. by eexists.
Qed.

(** Alignment on a common sorted index and selection of the complete
    rows is the inner join. *)
Lemma complete_pairs_inner_join s1 s2 U :
  StronglySorted dt_lt U →
  StronglySorted dt_lt (s_index s1) →
  (∀ t, t ∈ s_index s1 → t ∈ U) →
  Forall (λ p, is_nan p.2 = false) s1 →
  Forall (λ p, is_nan p.2 = false) s2 →
  complete_pairs (reindex s1 U) (reindex s2 U) = inner_join s1 s2.
Proof.
  intros HU Hs1 Hsub Hn1 Hn2.
  rewrite complete_pairs_reindex, inner_join_cells by by apply sorted_NoDup.
  f_equal.
  rewrite (list_filter_iff _ (λ u, u ∈ s_index s2 ∧ u ∈ s_index s1)).
  2: { intros u. rewrite !cell_not_nan by done. tauto. }
  rewrite <-list_filter_filter. f_equal.
  apply sorted_ext; [|done|].
  - eapply StronglySorted_sublist; [apply sublist_filter|done].
  - intros t. rewrite list_elem_of_filter. split; [tauto|auto].
Qed.

Lemma inner_join_not_nan s1 s2 :
  Forall (λ p, is_nan p.2 = false) s1 →
  Forall (λ p, is_nan p.2 = false) s2 →
  filter both_present (inner_join s1 s2) = inner_join s1 s2.
Proof.
  intros Hn1 Hn2. unfold inner_join.
  induction Hn1 as [|[t v] s1 Hv Hn1 IH]; [done|].
  cbn [omap list_omap fst snd].
  destruct (s_lookup t s2) as [v2|] eqn:Hl; simpl; [|done].
  rewrite filter_cons_True, IH; [done|].
  split; [done|]. rewrite Forall_forall in Hn2.
  by apply (Hn2 (t, v2)), s_lookup_elem_of.
Qed.

(** ** Frames *)

Lemma index_of_dict_get {V} k (d : dict V) v :
  dict_get k d = Some v →
  ∃ i, index_of k (keys d) = Some i ∧ d.*2 !! i = Some v.
Proof.
  unfold keys. induction d as [|[k' v'] d IH]; [done|].
  rewrite !fmap_cons. cbn [dict_get index_of fst snd].
  destruct (String.eqb k k'); [intros [= ->]; by exists 0|].
  intros (i & Hi & ?)%IH. exists (S i). by rewrite Hi.
Qed.

Lemma iloc_col_pd (d : dict Series) i s :
  d.*2 !! i = Some s →
  s_values (iloc_col (pd_DataFrame d) i) =
    reindex s (union_index (s_index <$> d.*2)).
Proof.
  intros Hi. unfold s_values, iloc_col, pd_DataFrame, reindex. simpl.
  rewrite <-!list_fmap_compose. apply list_fmap_ext. intros _ u _. simpl.
  by rewrite list_lookup_fmap, Hi.
Qed.

Lemma dict_values_elem_of {V} k (d : dict V) v :
  dict_get k d = Some v → v ∈ d.*2.
Proof.
  intros H%dict_get_elem_of. apply list_elem_of_fmap. by exists (k, v).
Qed.

Section frame_facts.
Variable frame_pearson series_pearson : list (float * float) → float.

(** The matrix entry of two columns built from sorted series without
    NaN is the kernel applied to their inner join. *)
Lemma DataFrame_corr_inner_join (d : dict Series) t1 t2 (s1 s2 : Series) :
  dict_get t1 d = Some s1 → dict_get t2 d = Some s2 →
  StronglySorted dt_lt (s_index s1) →
  Forall (λ p, is_nan p.2 = false) s1 →
  Forall (λ p, is_nan p.2 = false) s2 →
  DataFrame_corr frame_pearson (pd_DataFrame d) t1 t2 =
    frame_pearson (inner_join s1 s2).
Proof.
  intros H1 H2 Hs Hn1 Hn2. unfold DataFrame_corr.
  destruct (index_of_dict_get _ _ _ H1) as (i & Hi & Hsi).
  destruct (index_of_dict_get _ _ _ H2) as (j & Hj & Hsj).
  change (f_names (pd_DataFrame d)) with (keys d). rewrite Hi, Hj.
  rewrite (iloc_col_pd d i s1), (iloc_col_pd d j s2) by done.
  rewrite complete_pairs_inner_join; [done|apply union_index_sorted|done| |done..].
  intros t Ht. apply elem_of_union_index. exists (s_index s1).
  split; [|done]. apply list_elem_of_fmap. exists s1.
  split; [done|]. by eapply dict_values_elem_of.
Qed.

Lemma combined_rows (spy ret : Series) k1 k2 :
  f_rows (frame_dropna (pd_DataFrame [(k1, spy); (k2, ret)])) =
    (λ u, (u, [cell spy u; cell ret u])) <$>
      filter (λ u, is_nan (cell spy u) = false ∧ is_nan (cell ret u) = false)
        (union_index [s_index spy; s_index ret]).
Proof.
  unfold frame_dropna, pd_DataFrame. simpl.
  generalize (union_index [s_index spy; s_index ret]) as U.
  induction U as [|u U IH]; [done|]. rewrite fmap_cons.
  fold (cell spy u) (cell ret u).
  destruct (decide (is_nan (cell spy u) = false ∧ is_nan (cell ret u) = false))
    as [[Ha Hb]|Hno].
  - rewrite !filter_cons_True; [by rewrite IH|done|].
    simpl. unfold notna. by rewrite Ha, Hb.
  - rewrite !filter_cons_False; [done|done|].
    simpl. unfold notna. intros Hall. apply Hno.
    by destruct (is_nan (cell spy u)), (is_nan (cell ret u)).
Qed.

Lemma inner_join_diag (a b : datetime → float) (l l' : list datetime) :
  (∀ u, u ∈ l' → u ∈ l) →
  inner_join ((λ u, (u, a u)) <$> l') ((λ u, (u, b u)) <$> l) =
    (λ u, (a u, b u)) <$> l'.
Proof.
  intros Hsub. unfold inner_join.
  assert (∀ u, u ∈ l → s_lookup u ((λ u, (u, b u)) <$> l) = Some (b u)) as Hl.
  { clear. intros u. induction l as [|w l IH]; [by intros ?%elem_of_nil|].
    rewrite fmap_cons. simpl. case_decide; [by subst|].
    intros [?|?]%elem_of_cons; [done|auto]. }
  induction l' as [|u l' IH]; [done|].
  rewrite !fmap_cons. cbn [omap list_omap fst snd].
  rewrite Hl by (apply Hsub; left). simpl. f_equal.
  apply IH. intros w ?. apply Hsub. by right.
Qed.

(** The benchmark frame (line 180): its length and the coefficient of
    its two columns, in terms of the inner join of the two series. *)
Lemma combined_inner_join (spy ret : Series) k1 k2 :
  StronglySorted dt_lt (s_index spy) →
  Forall (λ p, is_nan p.2 = false) spy →
  Forall (λ p, is_nan p.2 = false) ret →
  frame_len (frame_dropna (pd_DataFrame [(k1, spy); (k2, ret)])) =
    length (inner_join spy ret) ∧
  Series_corr series_pearson
    (iloc_col (frame_dropna (pd_DataFrame [(k1, spy); (k2, ret)])) 0)
    (iloc_col (frame_dropna (pd_DataFrame [(k1, spy); (k2, ret)])) 1) =
    series_pearson (inner_join spy ret).
Proof.
  intros Hs Hn1 Hn2.
  pose proof (complete_pairs_inner_join spy ret
                (union_index [s_index spy; s_index ret])
                (union_index_sorted _) Hs) as Hcp.
  rewrite complete_pairs_reindex in Hcp.
  assert (∀ t, t ∈ s_index spy → t ∈ union_index [s_index spy; s_index ret])
    as Hsub.
  { intros t Ht. apply elem_of_union_index. exists (s_index spy).
    split; [left|done]. }
  specialize (Hcp Hsub Hn1 Hn2).
  unfold frame_len, Series_corr, iloc_col.
  rewrite combined_rows. rewrite <-Hcp. split.
  - by rewrite !length_fmap.
  - rewrite <-!list_fmap_compose. f_equal.
    rewrite (inner_join_diag (cell spy) (cell ret)) by done.
    rewrite Hcp. by apply inner_join_not_nan.
Qed.
End frame_facts.

(** ** The transform as a whole *)

Lemma keys_fmap_pair {V} (f : string → V) (l : list string) :
  keys ((λ t, (t, f t)) <$> l) = l.
Proof.
  unfold keys. rewrite <-list_fmap_compose. induction l; simpl; by f_equal.
Qed.

Lemma dict_get_fmap_pair {V} (f : string → V) (l : list string) k :
  k ∈ l → dict_get k ((λ t, (t, f t)) <$> l) = Some (f k).
Proof.
  induction l as [|t l IH]; [by intros ?%elem_of_nil|].
  rewrite fmap_cons. simpl. destruct (String.eqb_spec k t) as [->|Hne]; [done|].
  intros [?|?]%elem_of_cons; [done|auto].
Qed.

Lemma foldl_ext_in {A B} (f g : A → B → A) (l : list B) a :
  (∀ a' x, x ∈ l → f a' x = g a' x) → foldl f a l = foldl g a l.
Proof.
  revert a. induction l as [|x l IH]; intros a Hfg; simpl; [done|].
  rewrite Hfg by left. apply IH. intros a' y ?. apply Hfg. by right.
Qed.

Lemma valid_of_elem df t : t ∈ valid_of df ↔ eligible df t = true ∧ t ∈ ticker_list.
Proof. unfold valid_of. by rewrite list_elem_of_filter. Qed.

Lemma valid_of_NoDup df : NoDup (valid_of df).
Proof. apply NoDup_filter, ticker_list_NoDup. Qed.

Lemma valid_of_not_SPY df : "SPY" ∉ valid_of df.
Proof. intros [_ ?]%valid_of_elem. by apply SPY_not_registered. Qed.

Lemma valid_of_commas df t : t ∈ valid_of df → commas t = 0.
Proof. intros [_ ?]%valid_of_elem. by apply ticker_list_commas. Qed.

Lemma keys_returns_dict_of df : keys (returns_dict_of df) = valid_of df.
Proof. apply keys_fmap_pair. Qed.

Lemma returns_dict_of_get df t :
  t ∈ valid_of df → dict_get t (returns_dict_of df) = Some (ret_of df t).
Proof. apply dict_get_fmap_pair. Qed.

Section transform_facts.
Variable frame_pearson series_pearson : list (float * float) → float.

(** The transform, branch by branch. *)
Lemma transform_eq df now :
  transform frame_pearson series_pearson df now =
    if df_empty df then (["FAILED - no data returned" +:+ nl], Exit 1)
    else match df_columns df !! ("Close", "SPY") with
         | None =>
             (["  Processing SPY ... ";
               "FAILED (" +:+ exception_str
                  (KeyError (if existsb (λ kv, String.eqb kv.1.1 "Close")
                                  (map_to_list (df_columns df))
                             then "SPY" else "Close")) +:+ ")" +:+ nl],
              Exit 1)
         | Some _ =>
             (progress frame_pearson df,
              Completed (document frame_pearson series_pearson df now))
         end.
Proof.
  unfold transform. destruct (df_empty df); [done|].
  rewrite getitem2_close.
  destruct (df_columns df !! ("Close", "SPY")) as [col|] eqn:Hspy; [|done].
  assert (pct_returns (dropna (zip (df_index df) col)) = ret_of df "SPY") as ->.
  { unfold ret_of, close_of. by rewrite Hspy. }
  cbv zeta.
  destruct (process_fold df ticker_list
              {| returns_dict := []; ticker_data := [];
                 printed := ["  Processing SPY ... "] ++
                   [pretty (length (rounded_returns (ret_of df "SPY")))
                      +:+ " months" +:+ nl] |}
              ticker_list_NoDup ticker_list_registered)
    as (E1 & E2 & E3).
  { intros t _. split; apply not_elem_of_nil. }
  rewrite E1, E2, E3. cbn [returns_dict ticker_data printed app].
  fold (valid_of df). fold (returns_dict_of df).
  by rewrite !keys_returns_dict_of.
Qed.
End transform_facts.

(** ** Keys of pairs *)

Lemma commas_app s1 s2 : commas (s1 +:+ s2) = commas s1 + commas s2.
Proof. induction s1 as [|c s1 IH]; simpl; [done|]. rewrite IH. lia. Qed.

Lemma commas_pair_key a b : commas (pair_key a b) = commas a + 1 + commas b.
Proof. unfold pair_key. rewrite !commas_app. simpl. lia. Qed.

(** A key determines its two symbols when the first has no comma. *)
Lemma pair_key_inj a b c d :
  commas a = 0 → commas c = 0 → pair_key a b = pair_key c d → a = c ∧ b = d.
Proof.
  unfold pair_key. revert c.
  induction a as [|x a IH]; intros [|y c]; cbn [String.append commas].
  - intros _ _ Heq. by simplify_eq.
  - intros _ Hc Heq; simplify_eq; simpl in Hc; lia.
  - intros Ha _ Heq; simplify_eq; simpl in Ha; lia.
  - intros Ha Hc Heq. injection Heq as -> Heq.
    destruct (IH c) as [-> ->]; [lia|lia|done|done].
Qed.

(** A string that is a key of two comma-free symbols splits in one way
    only. *)
Lemma pair_key_inj_any a b c d :
  commas c = 0 → commas d = 0 → pair_key a b = pair_key c d → a = c ∧ b = d.
Proof.
  intros Hc Hd Heq. apply pair_key_inj; [|done..].
  apply (f_equal commas) in Heq. rewrite !commas_pair_key in Heq. lia.
Qed.

Lemma emitted_Some key c k v :
  emitted key c = Some (k, v) ↔ k = key ∧ is_nan c = false ∧ v = py_round c 3.
Proof.
  unfold emitted, notna. destruct (is_nan c); simpl;
    [split; [done|by intros (_ & ? & _)]|].
  split; [by intros [= <- <-]|by intros (-> & _ & ->)].
Qed.

Lemma elem_of_enumerate {A} (l : list A) i x :
  (i, x) ∈ enumerate l ↔ l !! i = Some x.
Proof.
  unfold enumerate. rewrite elem_of_lookup_imap. split.
  - by intros (j & y & [= -> ->] & ?).
  - intros ?. by exists i, x.
Qed.

(** ** The dict [correlations] *)

Section correlations_facts.
Variable frame_pearson series_pearson : list (float * float) → float.

Lemma pair_correlations_ins df :
  pair_correlations (valid_of df)
    (DataFrame_corr frame_pearson (pd_DataFrame (returns_dict_of df))) =
  foldl (ins (pair_candidate frame_pearson df)) []
    (enumerate (valid_of df) ≫= λ x, pair x <$> enumerate (valid_of df)).
Proof.
  unfold pair_correlations.
  rewrite (foldl_nested (λ acc it1 it2,
    if it1.1 <? it2.1 then
      let val := DataFrame_corr frame_pearson
                   (pd_DataFrame (returns_dict_of df)) it1.2 it2.2 in
      if notna val then dict_set (pair_key it1.2 it2.2) (py_round val 3) acc
      else acc
    else acc)).
  apply foldl_ext_in. intros acc [[i t1] [j t2]] Hin.
  apply list_elem_of_bind in Hin as (x & Hin2 & Hin1).
  apply list_elem_of_fmap in Hin2 as (y & [= <- <-] & Hin2).
  apply elem_of_enumerate, list_elem_of_lookup_2 in Hin1, Hin2.
  unfold ins, pair_candidate, emitted, overlap. simpl.
  destruct (i <? j); [|done].
  rewrite (DataFrame_corr_inner_join _ _ t1 t2 (ret_of df t1) (ret_of df t2));
    auto using returns_dict_of_get, ret_of_sorted, ret_of_not_nan.
  by destruct (notna _).
Qed.

Lemma spy_correlation_ins df acc t :
  t ∈ valid_of df →
  spy_correlation series_pearson (ret_of df "SPY") (returns_dict_of df) acc t =
    ins (spy_candidate series_pearson df) acc t.
Proof.
  intros Ht. unfold spy_correlation, ins, spy_candidate, emitted, overlap.
  rewrite returns_dict_of_get by done. cbv zeta.
  destruct (combined_inner_join series_pearson (ret_of df "SPY") (ret_of df t)
              "SPY" t (ret_of_sorted _ _) (ret_of_not_nan _ _) (ret_of_not_nan _ _))
    as [-> ->].
  destruct (12 <? _); [|done]. by destruct (notna _).
Qed.

Lemma correlations_ins df now :
  correlations (document frame_pearson series_pearson df now) =
    foldl (ins (spy_candidate series_pearson df))
      (foldl (ins (pair_candidate frame_pearson df)) []
         (enumerate (valid_of df) ≫= λ x, pair x <$> enumerate (valid_of df)))
      (valid_of df).
Proof.
  unfold document. cbn [correlations]. rewrite pair_correlations_ins.
  apply foldl_ext_in. intros acc t Ht. by apply spy_correlation_ins.
Qed.

Lemma pair_candidate_Some df it k v :
  it ∈ (enumerate (valid_of df) ≫= λ x, pair x <$> enumerate (valid_of df)) →
  pair_candidate frame_pearson df it = Some (k, v) →
  pair_entry frame_pearson df k v.
Proof.
  destruct it as [[i t1] [j t2]]. intros Hin Hc.
  apply list_elem_of_bind in Hin as (x & Hin2 & Hin1).
  apply list_elem_of_fmap in Hin2 as (y & [= <- <-] & Hin2).
  apply elem_of_enumerate in Hin1, Hin2.
  unfold pair_candidate in Hc. simpl in Hc.
  destruct (Nat.ltb_spec i j); [|done].
  apply emitted_Some in Hc as (-> & ? & ->). by exists i, j, t1, t2.
Qed.

Lemma pair_entry_candidate df k v :
  pair_entry frame_pearson df k v →
  ∃ it, it ∈ (enumerate (valid_of df) ≫= λ x, pair x <$> enumerate (valid_of df))
        ∧ pair_candidate frame_pearson df it = Some (k, v).
Proof.
  intros (i & j & t1 & t2 & H1 & H2 & Hlt & -> & Hn & ->).
  exists ((i, t1), (j, t2)). split.
  - apply list_elem_of_bind. exists (i, t1).
    split; [|by apply elem_of_enumerate].
    apply list_elem_of_fmap. exists (j, t2). split; [done|].
    by apply elem_of_enumerate.
  - unfold pair_candidate. simpl.
    rewrite (proj2 (Nat.ltb_lt i j)) by done. by apply emitted_Some.
Qed.

Lemma spy_candidate_Some df t k v :
  t ∈ valid_of df →
  spy_candidate series_pearson df t = Some (k, v) ↔
  k = pair_key "SPY" t ∧ 12 < length (overlap df "SPY" t) ∧
  is_nan (series_pearson (overlap df "SPY" t)) = false ∧
  v = py_round (series_pearson (overlap df "SPY" t)) 3.
Proof.
  intros Ht. unfold spy_candidate.
  destruct (Nat.ltb_spec 12 (length (overlap df "SPY" t))).
  - rewrite emitted_Some.
    split; [by intros (-> & ? & ->)|by intros (-> & _ & ? & ->)].
  - split; [done|lia].
Qed.

(** Two entries under one key have one value. *)
Lemma pair_entry_unique df k v v' :
  pair_entry frame_pearson df k v → pair_entry frame_pearson df k v' → v = v'.
Proof.
  intros (i & j & t1 & t2 & H1 & H2 & _ & -> & _ & ->)
         (i' & j' & t1' & t2' & H1' & H2' & _ & Hk & _ & ->).
  apply pair_key_inj in Hk as [-> ->]; [done|..];
    eauto using valid_of_commas, list_elem_of_lookup_2.
Qed.

Lemma spy_entry_unique df k v v' :
  spy_entry series_pearson df k v → spy_entry series_pearson df k v' → v = v'.
Proof.
  intros (t & _ & -> & _ & _ & ->) (t' & _ & Hk & _ & _ & ->).
  apply pair_key_inj in Hk as [_ ->]; done.
Qed.

Lemma pair_spy_disjoint df k v v' : pair_entry frame_pearson df k v → spy_entry series_pearson df k v' → False.
Proof.
  intros (i & j & t1 & t2 & H1 & H2 & _ & -> & _ & _) (t & _ & Hk & _).
  apply list_elem_of_lookup_2 in H1.
  apply pair_key_inj in Hk as [-> _]; [|eauto using valid_of_commas|done].
  by apply valid_of_not_SPY in H1.
Qed.

Lemma correlations_lookup df now k v :
  dict_get k (correlations (document frame_pearson series_pearson df now))
    = Some v ↔ pair_entry frame_pearson df k v ∨ spy_entry series_pearson df k v.
Proof.
  rewrite correlations_ins. split.
  - intros [Hacc|(t & Ht & Hc)]%foldl_ins_sound.
    + apply foldl_ins_sound in Hacc as [?|(it & Hin & Hc)]; [done|].
      left. by eapply pair_candidate_Some.
    + right. exists t. split; [done|]. by apply spy_candidate_Some.
  - intros [Hp|Hs].
    + apply foldl_ins_complete.
      * intros t v' Ht Hc. destruct (pair_spy_disjoint df k v v' Hp).
        exists t. split; [done|]. by apply spy_candidate_Some.
      * left. apply foldl_ins_complete.
        -- intros it v' Hin Hc. eapply pair_entry_unique; [|done].
           by eapply pair_candidate_Some.
        -- right. by apply pair_entry_candidate.
    + apply foldl_ins_complete.
      * intros t v' Ht Hc. eapply spy_entry_unique; [|done].
        exists t. split; [done|]. by apply spy_candidate_Some.
      * right. destruct Hs as (t & Ht & Hrest). exists t. split; [done|].
        by apply spy_candidate_Some.
Qed.
End correlations_facts.

(** ** Returns from prices *)

Lemma pct_from_lookup t0 prev s t :
  pct_from prev s !! t =
    p ← ((t0, prev) :: s) !! t; q ← s !! t; Some (q.1, (q.2 / p.2 - 1)%float).
Proof.
  revert t0 prev t. induction s as [|[t1 p1] s IH]; intros t0 prev t.
  - by destruct t.
  - destruct t as [|t]; [done|]. simpl. apply IH.
Qed.

Lemma length_pct_from prev s : length (pct_from prev s) = length s.
Proof.
  revert prev. induction s as [|[t p] s IH]; intros prev; simpl; by f_equal.
Qed.

Lemma dropna_id s : Forall (λ p, is_nan p.2 = false) s → dropna s = s.
Proof.
  unfold dropna. induction 1 as [|x s Hx _ IH]; [done|].
  by rewrite filter_cons_True, IH.
Qed.

(** When no change between consecutive prices is NaN, the return series
    has one entry per pair of consecutive prices. *)
Lemma pct_returns_lookup close :
  (∀ t p q, close !! t = Some p → close !! S t = Some q →
            is_nan (q.2 / p.2 - 1)%float = false) →
  length (pct_returns close) = length close - 1 ∧
  ∀ t p q, close !! t = Some p → close !! S t = Some q →
    pct_returns close !! t = Some (q.1, ((q.2 / p.2 - 1) * 100)%float).
Proof.
  intros Hdef. unfold pct_returns.
  destruct close as [|[t0 p0] rest]; [split; [done|by intros []]|].
  assert (dropna (pct_change ((t0, p0) :: rest)) = pct_from p0 rest) as ->.
  { unfold dropna. cbn [pct_change]. rewrite filter_cons_False by done.
    apply dropna_id, Forall_lookup. intros t x Hx.
    rewrite (pct_from_lookup t0) in Hx.
    destruct (((t0, p0) :: rest) !! t) as [p|] eqn:Hp; [|done].
    destruct (rest !! t) as [q|] eqn:Hq; [|done].
    simpl in Hx. injection Hx as <-. by apply (Hdef t p q). }
  unfold smul. rewrite length_fmap, length_pct_from. split; [simpl; lia|].
  intros t p q Hp Hq. rewrite list_lookup_fmap, (pct_from_lookup t0), Hp.
  simpl in Hq. by rewrite Hq.
Qed.

Lemma dict_get_fmap_pair_inv {V} (f : string → V) (l : list string) k v :
  dict_get k ((λ t, (t, f t)) <$> l) = Some v → k ∈ l ∧ v = f k.
Proof.
  induction l as [|t l IH]; [done|]. rewrite fmap_cons. simpl.
  destruct (String.eqb_spec k t) as [->|Hne].
  - intros [= <-]. split; [left|done].
  - intros [? ?]%IH. split; [by right|done].
Qed.

Lemma ret_of_close df symbol close :
  close_of df symbol = Some close → ret_of df symbol = pct_returns close.
Proof. unfold ret_of. by intros ->. Qed.

Section document_facts.
Variable frame_pearson series_pearson : list (float * float) → float.

Lemma transform_Completed df now out data :
  transform frame_pearson series_pearson df now = (out, Completed data) →
  df_empty df = false ∧ is_Some (df_columns df !! ("Close", "SPY")) ∧
  out = progress frame_pearson df ∧
  data = document frame_pearson series_pearson df now.
Proof.
  rewrite transform_eq. destruct (df_empty df); [done|].
  destruct (df_columns df !! ("Close", "SPY")); [|done].
  intros [= <- <-]. eauto.
Qed.

Lemma tickers_keys df now :
  keys (tickers (document frame_pearson series_pearson df now)) = valid_of df.
Proof. apply keys_fmap_pair. Qed.

(** The arrays of a retained symbol are those of its return series. *)
Lemma retained_document df now symbol dates returns :
  retained (document frame_pearson series_pearson df now) symbol dates returns →
  dates = month_labels (ret_of df symbol) ∧
  returns = rounded_returns (ret_of df symbol).
Proof.
  intros [(-> & -> & ->)|(e & He & -> & ->)]; [done|].
  apply dict_get_fmap_pair_inv in He as [_ ->]. done.
Qed.

Lemma correlations_keys df now k :
  k ∈ keys (correlations (document frame_pearson series_pearson df now)) ↔
  ∃ v, pair_entry frame_pearson df k v ∨ spy_entry series_pearson df k v.
Proof.
  rewrite <-dict_get_is_Some. unfold is_Some.
  by setoid_rewrite correlations_lookup.
Qed.
End document_facts.

(** A check, on a concrete price series, that no change between
    consecutive prices is NaN. *)
Lemma changes_defined_check (close : Series) :
  forallb (λ r, notna r.2)
    (match close with [] => [] | p0 :: rest => pct_from p0.2 rest end) = true →
  ∀ t p q, close !! t = Some p → close !! S t = Some q →
           is_nan (q.2 / p.2 - 1)%float = false.
Proof.
  destruct close as [|[t0 p0] rest]; [by intros _ []|]. cbn [snd].
  rewrite forallb_forall. intros Hall t p q Hp Hq. simpl in Hq.
  apply negb_true_iff.
  apply (Hall (q.1, (q.2 / p.2 - 1)%float)), list_elem_of_In.
  apply (list_elem_of_lookup_2 _ t). by rewrite (pct_from_lookup t0), Hp, Hq.
Qed.

Lemma string_app_assoc (s1 s2 s3 : string) :
  (s1 +:+ s2) +:+ s3 = s1 +:+ s2 +:+ s3.
Proof.
  induction s1 as [|c s1 IH]; [done|].
  change (String c ((s1 +:+ s2) +:+ s3) = String c (s1 +:+ s2 +:+ s3)).
  by rewrite IH.
Qed.

Lemma in_unit_finite v : in_unit v = true → is_finite v = true.
Proof.
  intros Hv. pose proof (in_unit_not_nan v Hv) as Hn.
  unfold is_finite, is_infinity. rewrite Hn. simpl.
  rewrite FloatAxioms.eqb_spec, abs_spec.
  apply andb_prop in Hv as [Hlo Hhi]. rewrite leb_spec in Hlo, Hhi.
  change (Prim2SF 1%float) with (S754_finite false 4503599627370496 (-52)) in Hhi.
  change (Prim2SF (-1)%float) with (S754_finite true 4503599627370496 (-52)) in Hlo.
  change (Prim2SF infinity) with (S754_infinity false).
  by destruct (Prim2SF v) as [[]|[]| |[] m e].
Qed.

Lemma clip_range v : is_nan (clip v) = true ∨ in_unit (clip v) = true.
Proof.
  unfold clip. destruct (1 <? v)%float eqn:H1; [by right|].
  destruct (v <? -1)%float eqn:H2; [by right|].
  destruct (is_nan v) eqn:Hn; [by left|right].
  unfold in_unit. by rewrite !ltb_false_leb.
Qed.

(** The reference kernel honours the contract of the library kernels:
    its result is NaN or lies between -1 and 1. *)
Lemma pearson_ref_range obs :
  is_nan (pearson_ref obs) = true ∨ in_unit (pearson_ref obs) = true.
Proof.
  unfold pearson_ref. cbv zeta. destruct (_ =? 0)%float; [by left|].
  apply clip_range.
Qed.

Section lookup_facts.
Variable frame_pearson series_pearson : list (float * float) → float.

(** The entry of a pair of valid symbols, first before second. *)
Lemma pair_get df now i j t1 t2 :
  valid_of df !! i = Some t1 → valid_of df !! j = Some t2 → i < j →
  dict_get (pair_key t1 t2)
    (correlations (document frame_pearson series_pearson df now)) =
    if is_nan (frame_pearson (overlap df t1 t2)) then None
    else Some (py_round (frame_pearson (overlap df t1 t2)) 3).
Proof.
  intros H1 H2 Hlt.
  assert (commas t1 = 0 ∧ commas t2 = 0) as [Hc1 Hc2].
  { split; eapply valid_of_commas, list_elem_of_lookup_2; done. }
  destruct (is_nan (frame_pearson (overlap df t1 t2))) eqn:Hn.
  - destruct (dict_get _ _) as [v|] eqn:Hget; [|done].
    apply correlations_lookup in Hget
      as [(i' & j' & u1 & u2 & H1' & _ & _ & Hk & Hn' & _)|(t & _ & Hk & _)].
    + apply pair_key_inj in Hk as [<- <-];
        [congruence|done|eauto using valid_of_commas, list_elem_of_lookup_2].
    + apply pair_key_inj in Hk as [-> _]; [|done..].
      by apply list_elem_of_lookup_2, valid_of_not_SPY in H1.
  - apply correlations_lookup. left. by exists i, j, t1, t2.
Qed.

(** The entry of the benchmark and a valid symbol. *)
Lemma spy_get df now t :
  t ∈ valid_of df →
  dict_get (pair_key "SPY" t)
    (correlations (document frame_pearson series_pearson df now)) =
    if (12 <? length (overlap df "SPY" t))
       && notna (series_pearson (overlap df "SPY" t))
    then Some (py_round (series_pearson (overlap df "SPY" t)) 3)
    else None.
Proof.
  intros Ht.
  destruct (dict_get _ _) as [v|] eqn:Hget.
  - apply correlations_lookup in Hget
      as [(i' & j' & u1 & u2 & H1' & _ & _ & Hk & _)|(t' & _ & Hk & Hlen & Hn & ->)].
    + apply pair_key_inj in Hk as [<- _];
        [|done|eauto using valid_of_commas, list_elem_of_lookup_2].
      by apply list_elem_of_lookup_2, valid_of_not_SPY in H1'.
    + apply pair_key_inj in Hk as [_ <-]; [|done..].
      unfold notna. rewrite Hn, (proj2 (Nat.ltb_lt _ _)) by done. done.
  - destruct (Nat.ltb_spec 12 (length (overlap df "SPY" t))); [|done].
    unfold notna.
    destruct (is_nan (series_pearson (overlap df "SPY" t))) eqn:Hn; [done|].
    assert (dict_get (pair_key "SPY" t)
              (correlations (document frame_pearson series_pearson df now))
            = Some (py_round (series_pearson (overlap df "SPY" t)) 3)) as Hget'.
    { apply correlations_lookup. right. by exists t. }
    congruence.
Qed.

(** The two symbols of any key of [correlations]. *)
Lemma correlations_key_symbols df now a b :
  pair_key a b ∈ keys (correlations (document frame_pearson series_pearson df now)) →
  (∃ i j, valid_of df !! i = Some a ∧ valid_of df !! j = Some b ∧ i < j) ∨
  (a = "SPY" ∧ b ∈ valid_of df).
Proof.
  intros [v [(i & j & t1 & t2 & H1 & H2 & Hlt & Hk & _)|(t & Ht & Hk & _)]]%correlations_keys.
  - apply pair_key_inj_any in Hk as [-> ->];
      eauto 10 using valid_of_commas, list_elem_of_lookup_2.
  - apply pair_key_inj_any in Hk as [-> ->]; eauto using valid_of_commas.
Qed.
End lookup_facts.

(** * The claims *)

(** The run on the sample table reaches line 186. *)
Lemma sample_transform :
  transform pearson_ref pearson_ref sample_df sample_now =
    (progress pearson_ref sample_df,
     Completed (document pearson_ref pearson_ref sample_df sample_now)).
Proof.
  rewrite transform_eq.
  assert (df_empty sample_df = false) as -> by (by vm_compute).
  destruct (df_columns sample_df !! ("Close", "SPY")) eqn:E; [done|].
  vm_compute in E. discriminate E.
Qed.

Section Claims.
Variable frame_pearson series_pearson : list (float * float) → float.
Variable float_repr : float → string.

(** C1, as amended.  For the benchmark and for every symbol in
    [tickers]: when no change between two consecutive non-missing prices
    is NaN, the return series has one entry less than the price series
    (none for an empty one), and the entry for prices [p] at position
    [t] and [q] at [t + 1] is [(q / p - 1) * 100] rounded to 4 decimals,
    labelled by the year and month of [q]'s date. *)
Theorem C1_returns_of_prices df now out data symbol dates returns close :
  transform frame_pearson series_pearson df now = (out, Completed data) →
  retained data symbol dates returns →
  close_of df symbol = Some close →
  (∀ t p q, close !! t = Some p → close !! S t = Some q →
            is_nan (q.2 / p.2 - 1)%float = false) →
  length returns = length close - 1 ∧
  ∀ t p q, close !! t = Some p → close !! S t = Some q →
    returns !! t = Some (py_round ((q.2 / p.2 - 1) * 100)%float 4) ∧
    dates !! t = Some (strftime_Ym q.1).
Proof.
  intros (_ & _ & _ & ->)%transform_Completed Hret Hclose Hdef.
  apply retained_document in Hret as [-> ->].
  rewrite (ret_of_close _ _ _ Hclose).
  destruct (pct_returns_lookup close Hdef) as [Hlen Hlook].
  unfold rounded_returns, month_labels, s_values, s_index.
  rewrite length_fmap, length_fmap. split; [done|].
  intros t p q Hp Hq. rewrite !list_lookup_fmap, (Hlook t p q Hp Hq). done.
Qed.

(** C10.  In the output document the [dates] and [returns] arrays of
    the benchmark and of every symbol in [tickers] have the same length,
    and position by position they are the month label and the rounded
    value of one entry of the symbol's return series. *)
Theorem C10_dates_label_returns df now out data symbol dates returns :
  transform frame_pearson series_pearson df now = (out, Completed data) →
  retained data symbol dates returns →
  length dates = length returns ∧
  length returns = length (ret_of df symbol) ∧
  ∀ i d r, ret_of df symbol !! i = Some (d, r) →
    dates !! i = Some (strftime_Ym d) ∧ returns !! i = Some (py_round r 4).
Proof.
  intros (_ & _ & _ & ->)%transform_Completed Hret.
  apply retained_document in Hret as [-> ->].
  unfold rounded_returns, month_labels, s_values, s_index.
  rewrite !length_fmap. split; [done|]. split; [done|].
  intros i d r Hi. by rewrite !list_lookup_fmap, Hi.
Qed.

(** C3.  A registry symbol is in [tickers] exactly when the table has
    its closing prices and at least 24 of them are not missing; a symbol
    that is not admitted is in no key of [correlations], on either
    side. *)
Theorem C3_admission_threshold df now out data t :
  transform frame_pearson series_pearson df now = (out, Completed data) →
  t ∈ ticker_list →
  (t ∈ keys (tickers data) ↔
     ∃ close, close_of df t = Some close ∧ 24 ≤ length close) ∧
  (t ∉ keys (tickers data) →
     ∀ x, (pair_key x t ∉ keys (correlations data)) ∧
          (pair_key t x ∉ keys (correlations data))).
Proof.
  intros (_ & _ & _ & ->)%transform_Completed Hreg. rewrite tickers_keys.
  split.
  - rewrite valid_of_elem. unfold eligible.
    destruct (close_of df t) as [close|]; split.
    + intros [?%Nat.leb_le _]. by exists close.
    + intros (? & [= <-] & ?). split; [by apply Nat.leb_le|done].
    + by intros [? _].
    + by intros (? & ? & _).
  - intros Hnot x. split.
    + intros [(_ & j & _ & ?%list_elem_of_lookup_2 & _)|[_ ?]]%correlations_key_symbols; done.
    + intros [(i & _ & ?%list_elem_of_lookup_2 & _)|[-> _]]%correlations_key_symbols;
        [done|]. by apply SPY_not_registered.
Qed.

(** C4.  [correlations] never has the keys of both orders of a pair,
    hence no key of a symbol with itself; every key is that of two
    valid symbols in iteration order, or of the benchmark and a valid
    symbol. *)
Theorem C4_upper_triangle_only df now out data :
  transform frame_pearson series_pearson df now = (out, Completed data) →
  (∀ a b, ¬ (pair_key a b ∈ keys (correlations data) ∧
             pair_key b a ∈ keys (correlations data))) ∧
  (∀ a, pair_key a a ∉ keys (correlations data)) ∧
  (∀ k, k ∈ keys (correlations data) →
     (∃ i j t1 t2, keys (tickers data) !! i = Some t1 ∧
                   keys (tickers data) !! j = Some t2 ∧ i < j ∧
                   k = pair_key t1 t2) ∨
     (∃ t, t ∈ keys (tickers data) ∧ k = pair_key "SPY" t)).
Proof.
  intros (_ & _ & _ & ->)%transform_Completed. rewrite tickers_keys.
  assert (∀ a b,
    ¬ (pair_key a b ∈ keys (correlations (document frame_pearson series_pearson df now)) ∧
       pair_key b a ∈ keys (correlations (document frame_pearson series_pearson df now))))
    as Hboth.
  { intros a b [Hab Hba].
    apply correlations_key_symbols in Hab as [(i & j & Hi & Hj & Hlt)|[-> Hb]],
      Hba as [(i' & j' & Hi' & Hj' & Hlt')|[Heq Ha]].
    - pose proof (NoDup_lookup _ _ _ _ (valid_of_NoDup df) Hi Hj').
      pose proof (NoDup_lookup _ _ _ _ (valid_of_NoDup df) Hj Hi'). lia.
    - subst b. by apply list_elem_of_lookup_2, valid_of_not_SPY in Hj.
    - by apply list_elem_of_lookup_2, valid_of_not_SPY in Hj'.
    - subst b. by apply valid_of_not_SPY in Hb. }
  split; [done|]. split; [intros a Ha; by apply (Hboth a a)|].
  intros k [v [(i & j & t1 & t2 & ? & ? & ? & ? & _)|(t & ? & ? & _)]]%correlations_keys.
  - left. by exists i, j, t1, t2.
  - right. by exists t.
Qed.

(** C5.  Given the contract of the library kernels (a coefficient is
    NaN or lies between -1 and 1), every value in [correlations] is a
    finite float between -1 and 1; and a pair whose coefficient is NaN
    has no key at all. *)
Theorem C5_values_finite_in_unit_interval df now out data :
  (∀ obs, is_nan (frame_pearson obs) = true ∨ in_unit (frame_pearson obs) = true) →
  (∀ obs, is_nan (series_pearson obs) = true ∨ in_unit (series_pearson obs) = true) →
  transform frame_pearson series_pearson df now = (out, Completed data) →
  (∀ k v, dict_get k (correlations data) = Some v →
     in_unit v = true ∧ is_finite v = true ∧ is_nan v = false) ∧
  (∀ i j t1 t2,
     keys (tickers data) !! i = Some t1 →
     keys (tickers data) !! j = Some t2 → i < j →
     is_nan (frame_pearson (inner_join (ret_of df t1) (ret_of df t2))) = true →
     pair_key t1 t2 ∉ keys (correlations data)) ∧
  (∀ t, t ∈ keys (tickers data) →
     is_nan (series_pearson (inner_join (ret_of df "SPY") (ret_of df t))) = true →
     pair_key "SPY" t ∉ keys (correlations data)).
Proof.
  intros Hfp Hsp (_ & _ & _ & ->)%transform_Completed. rewrite tickers_keys.
  split; [|split].
  - assert (∀ c, (is_nan c = true ∨ in_unit c = true) → is_nan c = false →
                 in_unit (py_round c 3) = true ∧
                 is_finite (py_round c 3) = true ∧
                 is_nan (py_round c 3) = false) as Hround.
    { intros c [?|Hc] ?; [congruence|].
      pose proof (py_round_3_unit c Hc).
      auto using in_unit_finite, in_unit_not_nan. }
    intros k v [(i & j & t1 & t2 & _ & _ & _ & _ & Hn & ->)
               |(t & _ & _ & _ & Hn & ->)]%correlations_lookup; by apply Hround.
  - intros i j t1 t2 Hi Hj Hlt Hn Hin%dict_get_is_Some.
    rewrite (pair_get _ _ _ _ i j) in Hin by done.
    fold (overlap df t1 t2) in Hn. rewrite Hn in Hin. by destruct Hin.
  - intros t Ht Hn Hin%dict_get_is_Some.
    rewrite spy_get in Hin by done. unfold notna in Hin.
    fold (overlap df "SPY" t) in Hn. rewrite Hn, andb_false_r in Hin.
    by destruct Hin.
Qed.

(** C6.  A key of the benchmark and [x] is in [correlations] exactly
    when [x] is a valid symbol, the two return series share at least 13
    periods, and the coefficient over them is not NaN. *)
Theorem C6_benchmark_needs_13_periods df now out data x :
  transform frame_pearson series_pearson df now = (out, Completed data) →
  pair_key "SPY" x ∈ keys (correlations data) ↔
    x ∈ keys (tickers data) ∧
    13 ≤ length (inner_join (ret_of df "SPY") (ret_of df x)) ∧
    is_nan (series_pearson (inner_join (ret_of df "SPY") (ret_of df x))) = false.
Proof.
  intros (_ & _ & _ & ->)%transform_Completed. rewrite tickers_keys. split.
  - intros Hin.
    assert (x ∈ valid_of df) as Hx.
    { apply correlations_key_symbols in Hin
        as [(i & _ & ?%list_elem_of_lookup_2 & _)|[_ ?]]; [|done].
      by destruct (valid_of_not_SPY df). }
    split; [done|]. apply dict_get_is_Some in Hin.
    rewrite spy_get in Hin by done. unfold overlap, notna in Hin.
    destruct (Nat.ltb_spec 12 (length (inner_join (ret_of df "SPY") (ret_of df x))));
      [|by destruct Hin].
    split; [lia|].
    destruct (is_nan _); [by destruct Hin|done].
  - intros (Hx & Hlen & Hn). apply dict_get_is_Some.
    rewrite spy_get by done. unfold overlap, notna.
    rewrite Hn, (proj2 (Nat.ltb_lt _ _)) by lia. by eexists.
Qed.

(** C7.  When the fetched table is empty, or getting the benchmark's
    closing prices raises, the run ends with exit status 1 and writes
    no file. *)
Theorem C7_fatal_errors_abort df now :
  df_empty df = true ∨ (∃ e, getitem2 df "Close" "SPY" = inl e) →
  exit_code (main frame_pearson series_pearson float_repr df now) = 1%Z ∧
  written (main frame_pearson series_pearson float_repr df now) = None.
Proof.
  intros Hfatal. unfold main, transform.
  destruct (df_empty df); [done|].
  destruct Hfatal as [?|[e ->]]; done.
Qed.

(** C8.  When the table is not empty and the benchmark's closing prices
    are there, the run ends with exit status 0 and writes the document,
    whatever happens to the registry symbols: a symbol without a column
    is reported as "NOT IN DATA" and left out, a symbol with fewer than
    24 prices is reported with its count and left out, and every symbol
    with at least 24 prices is in [tickers]. *)
Theorem C8_symbol_failures_are_skipped df now :
  df_empty df = false →
  (∃ column, getitem2 df "Close" "SPY" = inr column) →
  ∃ out data,
    transform frame_pearson series_pearson df now = (out, Completed data) ∧
    exit_code (main frame_pearson series_pearson float_repr df now) = 0%Z ∧
    written (main frame_pearson series_pearson float_repr df now) =
      Some (outpath, json_dumps float_repr (data_json data)) ∧
    ∀ t, t ∈ ticker_list →
      (close_of df t = None →
         (t ∉ keys (tickers data)) ∧
         ∃ l1 l2, stdout (main frame_pearson series_pearson float_repr df now) =
                  l1 ++ ["  " +:+ t +:+ " ... "; "NOT IN DATA" +:+ nl] ++ l2) ∧
      (∀ close, close_of df t = Some close → length close < 24 →
         (t ∉ keys (tickers data)) ∧
         ∃ l1 l2, stdout (main frame_pearson series_pearson float_repr df now) =
                  l1 ++ ["  " +:+ t +:+ " ... ";
                         "only " +:+ pretty (length close)
                           +:+ " months, skipping" +:+ nl] ++ l2) ∧
      (∀ close, close_of df t = Some close → 24 ≤ length close →
         t ∈ keys (tickers data)).
Proof.
  intros Hne [column Hspy]. unfold main. rewrite transform_eq, Hne.
  rewrite getitem2_close in Hspy.
  destruct (df_columns df !! ("Close", "SPY")) as [col|]; [|done].
  eexists _, _. split; [done|]. split; [done|]. split; [done|].
  intros t Ht. rewrite tickers_keys. cbn [stdout].
  assert (∃ l1 l2, ∀ tail,
            progress frame_pearson df ++ tail =
              l1 ++ ["  " +:+ t +:+ " ... "; ticker_report df t] ++ l2 ++ tail)
    as (l1 & l2 & Hlog).
  { apply list_elem_of_split in Ht as (la & lb & Hsplit).
    unfold progress. rewrite Hsplit, bind_app, bind_cons.
    set (f := λ t : string, ["  " +:+ t +:+ " ... "; ticker_report df t]).
    set (head := ["  Processing SPY ... "; _]).
    set (tail' := ["  Computing correlation matrix..."; _]).
    exists (head ++ (la ≫= f)), ((lb ≫= f) ++ tail'). intros tail.
    by rewrite <-!app_assoc. }
  split; [|split].
  - intros Hclose. split.
    + rewrite valid_of_elem. unfold eligible. rewrite Hclose. by intros [? _].
    + eexists l1, (l2 ++ [_]). rewrite Hlog. unfold ticker_report.
      by rewrite Hclose.
  - intros close Hclose Hlen. split.
    + rewrite valid_of_elem. unfold eligible. rewrite Hclose.
      intros [?%Nat.leb_le _]. lia.
    + eexists l1, (l2 ++ [_]). rewrite Hlog. unfold ticker_report.
      by rewrite Hclose, (proj2 (Nat.ltb_lt _ _)).
  - intros close Hclose Hlen. rewrite valid_of_elem. unfold eligible.
    rewrite Hclose. split; [by apply Nat.leb_le|done].
Qed.

(** C9.  For a given fetched table, the text written is the same for
    every clock reading except for the value of the "generated" field:
    it is a fixed prefix, the encoded date, and a fixed suffix; and
    whether the file is written at all does not depend on the clock. *)
Theorem C9_same_output_up_to_generated df :
  (∀ now, written (main frame_pearson series_pearson float_repr df now) = None) ∨
  (∃ pre post, ∀ now,
     written (main frame_pearson series_pearson float_repr df now) =
       Some (outpath, pre +:+ json_string (isoformat_date now) +:+ post)).
Proof.
  unfold main. setoid_rewrite transform_eq.
  destruct (df_empty df); [by left|].
  destruct (df_columns df !! ("Close", "SPY")); [|by left].
  right. eexists ("{" +:+ json_string "generated" +:+ ":"), _. intros now.
  cbn [written]. f_equal. f_equal.
  unfold data_json, document.
  cbn [json_dumps generated spy_dates spy_returns tickers correlations
       fmap list_fmap join String.concat].
  rewrite !string_app_assoc. reflexivity.
Qed.
End Claims.

(** C1 as stated fails: with closing prices 100, 0, 0, 50 the benchmark's
    price series has four entries and its return series two, since the
    change from 0 to 0 is NaN and [dropna] removes it. *)
Lemma C1_counterexample :
  ∃ out data close,
    transform pearson_ref pearson_ref zero_price_df sample_now
      = (out, Completed data) ∧
    close_of zero_price_df "SPY" = Some close ∧
    length close = 4 ∧
    length (spy_returns data) = 2 ∧
    length (spy_returns data) ≠ length close - 1.
Proof.
  eexists _, _, _. split; [|split; [by vm_compute|]].
  - rewrite transform_eq.
    assert (df_empty zero_price_df = false) as -> by (by vm_compute).
    destruct (df_columns zero_price_df !! ("Close", "SPY")) eqn:E; [done|].
    vm_compute in E. discriminate E.
  - by vm_compute.
Qed.



(** ** The claims on the sample table *)

Lemma C1_returns_of_prices_witness :
  let close := default [] (close_of sample_df "AAPL") in
  let e := entry_of sample_df "AAPL" in
  length (te_returns e) = length close - 1 ∧
  ∀ t p q, close !! t = Some p → close !! S t = Some q →
    te_returns e !! t = Some (py_round ((q.2 / p.2 - 1) * 100)%float 4) ∧
    te_dates e !! t = Some (strftime_Ym q.1).
Proof.
  apply (C1_returns_of_prices pearson_ref pearson_ref sample_df sample_now
           _ _ "AAPL" _ _ _ sample_transform).
  - right. exists (entry_of sample_df "AAPL"). split; [by vm_compute|done].
  - by vm_compute.
  - apply changes_defined_check. by vm_compute.
Defined.


Lemma C3_admission_threshold_witness :
  let data := document pearson_ref pearson_ref sample_df sample_now in
  ("V" ∈ keys (tickers data) ↔
     ∃ close, close_of sample_df "V" = Some close ∧ 24 ≤ length close) ∧
  ("V" ∉ keys (tickers data) →
     ∀ x, (pair_key x "V" ∉ keys (correlations data)) ∧
          (pair_key "V" x ∉ keys (correlations data))).
Proof.
  apply (C3_admission_threshold pearson_ref pearson_ref sample_df sample_now
           _ _ "V" sample_transform).
  apply (bool_decide_unpack _). by vm_compute.
Defined.

Lemma C4_upper_triangle_only_witness :
  let data := document pearson_ref pearson_ref sample_df sample_now in
  (∀ a b, ¬ (pair_key a b ∈ keys (correlations data) ∧
             pair_key b a ∈ keys (correlations data))) ∧
  (∀ a, pair_key a a ∉ keys (correlations data)) ∧
  (∀ k, k ∈ keys (correlations data) →
     (∃ i j t1 t2, keys (tickers data) !! i = Some t1 ∧
                   keys (tickers data) !! j = Some t2 ∧ i < j ∧
                   k = pair_key t1 t2) ∨
     (∃ t, t ∈ keys (tickers data) ∧ k = pair_key "SPY" t)).
Proof.
  exact (C4_upper_triangle_only pearson_ref pearson_ref sample_df sample_now
           _ _ sample_transform).
Defined.

Lemma C5_values_finite_in_unit_interval_witness :
  let data := document pearson_ref pearson_ref sample_df sample_now in
  (∀ k v, dict_get k (correlations data) = Some v →
     in_unit v = true ∧ is_finite v = true ∧ is_nan v = false) ∧
  (∀ i j t1 t2,
     keys (tickers data) !! i = Some t1 →
     keys (tickers data) !! j = Some t2 → i < j →
     is_nan (pearson_ref (inner_join (ret_of sample_df t1) (ret_of sample_df t2))) = true →
     pair_key t1 t2 ∉ keys (correlations data)) ∧
  (∀ t, t ∈ keys (tickers data) →
     is_nan (pearson_ref (inner_join (ret_of sample_df "SPY") (ret_of sample_df t))) = true →
     pair_key "SPY" t ∉ keys (correlations data)).
Proof.
  exact (C5_values_finite_in_unit_interval pearson_ref pearson_ref sample_df
           sample_now _ _ pearson_ref_range pearson_ref_range sample_transform).
Defined.

Lemma C6_benchmark_needs_13_periods_witness :
  let data := document pearson_ref pearson_ref sample_df sample_now in
  pair_key "SPY" "MSFT" ∈ keys (correlations data) ↔
    "MSFT" ∈ keys (tickers data) ∧
    13 ≤ length (inner_join (ret_of sample_df "SPY") (ret_of sample_df "MSFT")) ∧
    is_nan (pearson_ref (inner_join (ret_of sample_df "SPY") (ret_of sample_df "MSFT")))
      = false.
Proof.
  exact (C6_benchmark_needs_13_periods pearson_ref pearson_ref sample_df
           sample_now _ _ "MSFT" sample_transform).
Defined.

Lemma C7_fatal_errors_abort_witness :
  exit_code (main pearson_ref pearson_ref dyadic_repr no_spy_df sample_now) = 1%Z ∧
  written (main pearson_ref pearson_ref dyadic_repr no_spy_df sample_now) = None.
Proof.
  apply (C7_fatal_errors_abort pearson_ref pearson_ref dyadic_repr no_spy_df
           sample_now).
  right. eexists. by vm_compute.
Defined.

Lemma C8_symbol_failures_are_skipped_witness :
  ∃ out data,
    transform pearson_ref pearson_ref sample_df sample_now = (out, Completed data) ∧
    exit_code (main pearson_ref pearson_ref dyadic_repr sample_df sample_now) = 0%Z ∧
    written (main pearson_ref pearson_ref dyadic_repr sample_df sample_now) =
      Some (outpath, json_dumps dyadic_repr (data_json data)) ∧
    ∀ t, t ∈ ticker_list →
      (close_of sample_df t = None →
         (t ∉ keys (tickers data)) ∧
         ∃ l1 l2, stdout (main pearson_ref pearson_ref dyadic_repr sample_df sample_now) =
                  l1 ++ ["  " +:+ t +:+ " ... "; "NOT IN DATA" +:+ nl] ++ l2) ∧
      (∀ close, close_of sample_df t = Some close → length close < 24 →
         (t ∉ keys (tickers data)) ∧
         ∃ l1 l2, stdout (main pearson_ref pearson_ref dyadic_repr sample_df sample_now) =
                  l1 ++ ["  " +:+ t +:+ " ... ";
                         "only " +:+ pretty (length close)
                           +:+ " months, skipping" +:+ nl] ++ l2) ∧
      (∀ close, close_of sample_df t = Some close → 24 ≤ length close →
         t ∈ keys (tickers data)).
Proof.
  apply (C8_symbol_failures_are_skipped pearson_ref pearson_ref dyadic_repr
           sample_df sample_now).
  - by vm_compute.
  - eexists. by vm_compute.
Defined.

Lemma C10_dates_label_returns_witness :
  let data := document pearson_ref pearson_ref sample_df sample_now in
  length (spy_dates data) = length (spy_returns data) ∧
  length (spy_returns data) = length (ret_of sample_df "SPY") ∧
  ∀ i d r, ret_of sample_df "SPY" !! i = Some (d, r) →
    spy_dates data !! i = Some (strftime_Ym d) ∧
    spy_returns data !! i = Some (py_round r 4).
Proof.
  apply (C10_dates_label_returns pearson_ref pearson_ref sample_df sample_now
           _ _ "SPY" _ _ sample_transform).
  by left.
Defined.

(** Concrete readings of the sample run. *)
Example sample_correlation_keys :
  keys (correlations (document pearson_ref pearson_ref sample_df sample_now))
    = ["AAPL,MSFT"; "SPY,AAPL"; "SPY,MSFT"].
Proof. by vm_compute. Qed.

Example sample_tickers :
  keys (tickers (document pearson_ref pearson_ref sample_df sample_now))
    = ["AAPL"; "MSFT"].
Proof. by vm_compute. Qed.

Example sample_first_return :
  te_returns (entry_of sample_df "AAPL") !! 0 = Some 2%float ∧
  te_dates (entry_of sample_df "AAPL") !! 0 = Some "2020-02".
Proof. by vm_compute. Qed.

(** The overlap is a matter of the two symbols only: "MSFT" lacks two
    months, which shortens its overlap with "AAPL" and leaves that of the
    benchmark with "AAPL" whole. *)
Example sample_overlaps :
  length (overlap sample_df "AAPL" "MSFT") = 23 ∧
  length (overlap sample_df "SPY" "AAPL") = 25.
Proof. by vm_compute. Qed.

(** A month whose change is NaN disappears with its label. *)
Example zero_price_months :
  month_labels (ret_of zero_price_df "SPY") = ["2020-02"; "2020-04"] ∧
  rounded_returns (ret_of zero_price_df "SPY") = [(-100)%float; infinity].
Proof. by vm_compute. Qed.

Example py_round_half_even :
  py_round 0.125 2 = (12 / 100)%float ∧ py_round 0.375 2 = (38 / 100)%float ∧
  py_round 2.5 0 = 2%float ∧ py_round (-0.5) 0 = (-0)%float.
Proof. by vm_compute. Qed.

(** The reference coefficient on small samples: 1 and -1 on a rising and
    on a falling line, 3/5 on a sample worked by hand, and undefined for
    a constant column, a single observation, or an infinite value. *)
Example pearson_ref_samples :
  pearson_ref [(1, 2); (2, 4); (3, 6)]%float = 1%float ∧
  pearson_ref [(1, 3); (2, 2); (3, 1)]%float = (-1)%float ∧
  pearson_ref [(1, 2); (2, 1); (3, 4); (4, 3)]%float = (3 / 5)%float ∧
  is_nan (pearson_ref [(1, 1); (2, 1); (3, 1)]%float) = true ∧
  is_nan (pearson_ref [(1, 2)]%float) = true ∧
  is_nan (pearson_ref [(1, 2); (infinity, 4); (3, 6)]%float) = true ∧
  nancorr [(1, 2); (infinity, 4); (3, 6); (4, 8)]%float = 1%float.
Proof. by vm_compute. Qed.

(** The run on the table with an infinite return: the pair has a value,
    the benchmark and "AAPL" have none. *)
Example infinite_return_correlation_keys :
  keys (correlations (document nancorr pearson_ref infinite_return_df sample_now))
    = ["AAPL,MSFT"; "SPY,MSFT"].
Proof. by vm_compute. Qed.

(** ** Rounding never produces NaN *)

Lemma binary_round_not_nan s m e : binary_round prec emax s m e ≠ S754_nan.
Proof.
  unfold binary_round. destruct (shl_align _ _ _).
  by apply binary_round_aux_not_nan.
Qed.

Lemma SF2Prim_not_nan y : y ≠ S754_nan → is_nan (SF2Prim y) = false.
Proof.
  intros Hy. destruct y as [[]|[]| |s m e]; [done..| |].
  { by destruct Hy. }
  assert (Prim2SF (Z.ldexp (of_uint63 (Uint63Axioms.of_Z (Z.pos m))) e)
            ≠ S754_nan) as Hf.
  { rewrite Z_ldexp_spec, of_uint63_spec. unfold binary_normalize, SFldexp.
    destruct (Uint63Axioms.to_Z _) as [|k|k]; [done|..];
      match goal with
      | |- context [binary_round prec emax ?b k 0] =>
          pose proof (binary_round_not_nan b k 0) as Hk;
          destruct (binary_round prec emax b k 0); try done;
          apply binary_round_not_nan
      end. }
  apply not_nan_Prim2SF. cbn [SF2Prim]. destruct s; [|done].
  rewrite opp_spec. by destruct (Prim2SF _).
Qed.

Lemma decimal_to_float_not_nan s k n : is_nan (decimal_to_float s k n) = false.
Proof.
  unfold decimal_to_float. destruct k as [|p|p]; [by destruct s| |by destruct s].
  apply SF2Prim_not_nan. unfold SFdiv.
  pose proof (SFdiv_core_nonneg p 0 (Z.to_pos (10 ^ Z.of_nat n)) 0) as Hnn.
  destruct (SFdiv_core_binary _ _ _ _ _ _) as [[mz ez] lz]. simpl in Hnn.
  by apply binary_round_aux_not_nan.
Qed.

Lemma py_round_not_nan x n : is_nan x = false → is_nan (py_round x n) = false.
Proof.
  intros Hx. unfold py_round.
  destruct (Prim2SF x); [done..|]. apply decimal_to_float_not_nan.
Qed.

(** ** Order of two elements in a list *)

Lemma lookup_lt_sublist {A} (l : list A) i j a b :
  l !! i = Some a → l !! j = Some b → i < j → [a; b] `sublist_of` l.
Proof.
  revert i j. induction l as [|x l IH]; intros i j Hi Hj Hlt; [done|].
  destruct j as [|j]; [lia|]. destruct i as [|i]; simpl in *.
  - injection Hi as ->. apply sublist_skip, singleton_sublist_l.
    by eapply list_elem_of_lookup_2.
  - apply sublist_cons. apply (IH i j); [done..|lia].
Qed.

Lemma sublist_lookup_lt {A} (l : list A) a b :
  [a; b] `sublist_of` l → ∃ i j, l !! i = Some a ∧ l !! j = Some b ∧ i < j.
Proof.
  induction l as [|x l IH]; intros Hsub.
  - by apply sublist_nil_r in Hsub.
  - apply sublist_cons_r in Hsub as [Hsub|(l' & [= <- <-] & Hb)].
    + destruct (IH Hsub) as (i & j & ? & ? & ?).
      exists (S i), (S j). split; [done|]. split; [done|lia].
    + apply singleton_sublist_l, list_elem_of_lookup_1 in Hb as [j Hj].
      exists 0, (S j). split; [done|]. split; [done|lia].
Qed.

Lemma sublist_pair_filter {A} (P : A → Prop) `{!∀ x, Decision (P x)} l a b :
  [a; b] `sublist_of` filter P l ↔ P a ∧ P b ∧ [a; b] `sublist_of` l.
Proof.
  split.
  - intros Hsub.
    assert (∀ x, x ∈ [a; b] → P x) as HP.
    { intros x Hx. eapply elem_of_sublist in Hx; [|done].
      by apply list_elem_of_filter in Hx as [? _]. }
    split; [apply HP; set_solver|]. split; [apply HP; set_solver|].
    etrans; [done|]. apply sublist_filter.
  - intros (Ha & Hb & Hsub). induction l as [|x l IH].
    + by apply sublist_nil_r in Hsub.
    + rewrite filter_cons.
      apply sublist_cons_r in Hsub as [Hsub|(l' & [= <- <-] & Hsub)].
      * destruct (decide (P x)); [apply sublist_cons|]; by apply IH.
      * rewrite decide_True by done. apply sublist_skip.
        apply singleton_sublist_l, list_elem_of_filter.
        split; [done|]. by apply singleton_sublist_l.
Qed.

Lemma sublist_upper_pairs {A} (l : list A) a b :
  [a; b] `sublist_of` l → (a, b) ∈ upper_pairs l.
Proof.
  induction l as [|x l IH]; intros Hsub.
  - by apply sublist_nil_r in Hsub.
  - simpl. apply elem_of_app.
    apply sublist_cons_r in Hsub as [Hsub|(l' & [= <- <-] & Hb)].
    + right. by apply IH.
    + left. apply list_elem_of_fmap_2. by apply singleton_sublist_l.
Qed.

Lemma length_upper_pairs {A} (l : list A) :
  2 * length (upper_pairs l) = length l * (length l - 1).
Proof.
  induction l as [|x l IH]; [done|].
  simpl. rewrite length_app, length_fmap. nia.
Qed.

(** ** Keys of a dict under assignment *)

Lemma keys_dict_set {V} k (v : V) (d : dict V) :
  keys (dict_set k v d) = if decide (k ∈ keys d) then keys d else keys d ++ [k].
Proof.
  unfold keys. induction d as [|[k0 v0] d IH]; [done|].
  cbn [dict_set]. destruct (String.eqb_spec k k0) as [->|Hne];
    cbv beta iota; rewrite !fmap_cons; cbn [fst].
  - destruct (decide (k0 ∈ k0 :: d.*1)) as [|Hn]; [done|].
    destruct Hn. apply list_elem_of_here.
  - rewrite IH. destruct (decide (k ∈ d.*1)) as [Hin|Hn].
    + destruct (decide (k ∈ k0 :: d.*1)) as [|Hn]; [done|]. destruct Hn.
      by apply list_elem_of_further.
    + destruct (decide (k ∈ k0 :: d.*1)) as [Hin|]; [|done].
      apply elem_of_cons in Hin as [?|?]; done.
Qed.

Lemma dict_set_NoDup {V} k (v : V) (d : dict V) :
  NoDup (keys d) → NoDup (keys (dict_set k v d)).
Proof.
  intros Hd. rewrite keys_dict_set. destruct (decide _); [done|].
  apply NoDup_app. split; [done|]. split; [|apply NoDup_singleton].
  intros x Hx ->%list_elem_of_singleton. done.
Qed.

Lemma foldl_ins_NoDup {A V} (f : A → option (string * V)) l (acc : dict V) :
  NoDup (keys acc) → NoDup (keys (foldl (ins f) acc l)).
Proof.
  revert acc. induction l as [|x l IH]; intros acc Hacc; [done|].
  simpl. apply IH. unfold ins. destruct (f x); [|done].
  by apply dict_set_NoDup.
Qed.

Lemma dict_get_fmap_pair_None {V} (f : string → V) (l : list string) k :
  k ∉ l → dict_get k ((λ t, (t, f t)) <$> l) = None.
Proof. intros Hk. apply dict_get_None. by rewrite keys_fmap_pair. Qed.

(** ** Lengths and members of the return series *)

Lemma length_inner_join (s1 s2 : Series) :
  length (inner_join s1 s2) ≤ length s1.
Proof.
  unfold inner_join. induction s1 as [|[t v] s1 IH]; [done|].
  simpl. destruct (s_lookup t s2); simpl; [apply le_n_S, IH|apply le_S, IH].
Qed.

Lemma dropna_pct_change t0 p0 (rest : Series) :
  dropna (pct_change ((t0, p0) :: rest)) = dropna (pct_from p0 rest).
Proof. unfold dropna. simpl. by rewrite filter_cons_False by done. Qed.

Lemma length_pct_returns (close : Series) :
  length (pct_returns close) ≤ length close - 1.
Proof.
  unfold pct_returns, smul. rewrite length_fmap.
  destruct close as [|[t0 p0] rest]; [done|].
  rewrite dropna_pct_change. unfold dropna.
  etrans; [apply length_filter|]. rewrite length_pct_from. simpl. lia.
Qed.

Lemma s_index_pct_returns_sublist (close : Series) :
  s_index (pct_returns close) `sublist_of` tail (s_index close).
Proof.
  unfold pct_returns. rewrite s_index_smul.
  destruct close as [|[t0 p0] rest]; [done|].
  rewrite dropna_pct_change.
  etrans; [apply s_index_dropna_sublist|]. by rewrite s_index_pct_from.
Qed.

Lemma elem_of_pct_returns (close : Series) d r :
  (d, r) ∈ pct_returns close ↔
  ∃ t p q, close !! t = Some p ∧ close !! S t = Some q ∧ d = q.1 ∧
           is_nan (q.2 / p.2 - 1)%float = false ∧
           r = ((q.2 / p.2 - 1) * 100)%float.
Proof.
  unfold pct_returns, smul.
  destruct close as [|[t0 p0] rest].
  { split; [by intros ?%elem_of_nil|]. by intros (t & p & q & ? & _). }
  rewrite dropna_pct_change. unfold dropna.
  rewrite list_elem_of_fmap. split.
  - intros ([d' c] & [= -> ->] & [Hc Hin]%list_elem_of_filter).
    apply list_elem_of_lookup_1 in Hin as [t Ht].
    rewrite (pct_from_lookup t0) in Ht.
    destruct (((t0, p0) :: rest) !! t) as [p|] eqn:Hp; [|done].
    destruct (rest !! t) as [q|] eqn:Hq; [|done].
    simpl in Ht. injection Ht as <- <-. by exists t, p, q.
  - intros (t & p & q & Hp & Hq & -> & Hc & ->).
    exists (q.1, (q.2 / p.2 - 1)%float). split; [done|].
    apply list_elem_of_filter. split; [done|].
    apply (list_elem_of_lookup_2 _ t). rewrite (pct_from_lookup t0), Hp.
    simpl in Hq. by rewrite Hq.
Qed.

Lemma sublist_tail_mono {A} (l1 l2 : list A) :
  l1 `sublist_of` l2 → tail l1 `sublist_of` tail l2.
Proof.
  induction 1 as [|x l1 l2 Hsub _|x l1 l2 Hsub _]; simpl; [done..|].
  etrans; [|done]. destruct l1; [done|]. by apply sublist_cons.
Qed.

Lemma s_index_ret_of_sublist df t :
  s_index (ret_of df t) `sublist_of` tail (df_index df).
Proof.
  unfold ret_of. etrans; [apply s_index_pct_returns_sublist|].
  apply sublist_tail_mono. unfold close_of.
  destruct (df_columns df !! ("Close", t)) as [col|]; simpl;
    [|apply sublist_nil_l].
  etrans; [apply s_index_dropna_sublist|apply s_index_zip_sublist].
Qed.

(** ** The same column in two tables *)

Lemma close_of_agree df1 df2 t :
  df_index df1 = df_index df2 →
  df_columns df1 !! ("Close", t) = df_columns df2 !! ("Close", t) →
  close_of df1 t = close_of df2 t.
Proof. unfold close_of. by intros -> ->. Qed.

Lemma eligible_agree df1 df2 t :
  close_of df1 t = close_of df2 t → eligible df1 t = eligible df2 t.
Proof. unfold eligible. by intros ->. Qed.

Lemma ret_of_agree df1 df2 t :
  close_of df1 t = close_of df2 t → ret_of df1 t = ret_of df2 t.
Proof. unfold ret_of. by intros ->. Qed.

Lemma valid_of_agree df1 df2 t :
  close_of df1 t = close_of df2 t → t ∈ valid_of df1 → t ∈ valid_of df2.
Proof.
  intros Hc. rewrite !valid_of_elem. by rewrite (eligible_agree df1 df2).
Qed.

Lemma valid_of_before df a b :
  (∃ i j, valid_of df !! i = Some a ∧ valid_of df !! j = Some b ∧ i < j) ↔
  eligible df a = true ∧ eligible df b = true ∧ [a; b] `sublist_of` ticker_list.
Proof.
  unfold valid_of. split.
  - intros (i & j & ? & ? & ?).
    apply (sublist_pair_filter (λ t, eligible df t = true)).
    by eapply lookup_lt_sublist.
  - intros Hab. apply sublist_lookup_lt.
    by apply (sublist_pair_filter (λ t, eligible df t = true)).
Qed.

(** ** Rounding a quotient *)

Lemma div_half_even_nearest n d :
  (0 < d)%Z → (Z.abs (2 * (d * div_half_even n d - n)) ≤ d)%Z.
Proof.
  intros Hd. unfold div_half_even.
  pose proof (Z.div_mod n d) as Hn. pose proof (Z.mod_pos_bound n d Hd) as Hr.
  set (q := (n / d)%Z) in *. set (r := (n mod d)%Z) in *.
  assert (d * (q + 1) = d * q + d)%Z as Hq by ring.
  destruct (Z.compare_spec (2 * r) d); [destruct (Z.even q)|..];
    rewrite ?Hq; lia.
Qed.

(** ** Correlations of two tables with the same columns *)

Section transfer_facts.
Variable frame_pearson series_pearson : list (float * float) → float.

Lemma correlations_transfer df1 df2 now1 now2 t1 t2 v :
  close_of df1 t1 = close_of df2 t1 →
  close_of df1 t2 = close_of df2 t2 →
  dict_get (pair_key t1 t2)
    (correlations (document frame_pearson series_pearson df1 now1)) = Some v →
  dict_get (pair_key t1 t2)
    (correlations (document frame_pearson series_pearson df2 now2)) = Some v.
Proof.
  intros H1 H2 Hv. apply correlations_lookup in Hv. apply correlations_lookup.
  assert (overlap df1 t1 t2 = overlap df2 t1 t2) as Hov.
  { unfold overlap.
    by rewrite (ret_of_agree _ _ _ H1), (ret_of_agree _ _ _ H2). }
  destruct Hv as [(i & j & a & b & Hi & Hj & Hlt & Hk & Hn & ->)
                 |(t & Ht & Hk & Hlen & Hn & ->)].
  - apply pair_key_inj_any in Hk as [-> ->];
      [|eapply valid_of_commas, list_elem_of_lookup_2; done..].
    left.
    destruct (proj1 (valid_of_before df1 a b)) as (Ea & Eb & Hab); [eauto 6|].
    destruct (proj2 (valid_of_before df2 a b)) as (i' & j' & ? & ? & ?).
    { by rewrite <-(eligible_agree df1 df2 a), <-(eligible_agree df1 df2 b). }
    exists i', j', a, b. by rewrite <-Hov.
  - apply pair_key_inj_any in Hk as [-> ->];
      [|done|by eapply valid_of_commas].
    right. exists t. rewrite <-Hov.
    split; [by eapply valid_of_agree|done].
Qed.

Lemma correlation_candidates df now k :
  k ∈ keys (correlations (document frame_pearson series_pearson df now)) →
  k ∈ ((λ ab, pair_key ab.1 ab.2) <$> upper_pairs (valid_of df))
        ++ (pair_key "SPY" <$> valid_of df).
Proof.
  intros [v Hk]%correlations_keys. apply elem_of_app.
  destruct Hk as [(i & j & a & b & Hi & Hj & Hlt & -> & _)|(t & Ht & -> & _)].
  - left. apply (list_elem_of_fmap_2' _ _ (a, b)); [|done].
    apply sublist_upper_pairs. by eapply lookup_lt_sublist.
  - right. by apply list_elem_of_fmap_2.
Qed.

Lemma correlations_NoDup df now :
  NoDup (keys (correlations (document frame_pearson series_pearson df now))).
Proof.
  rewrite correlations_ins. do 2 apply foldl_ins_NoDup. apply NoDup_nil_2.
Qed.
End transfer_facts.

Lemma zero_price_transform :
  transform pearson_ref pearson_ref zero_price_df sample_now =
    (progress pearson_ref zero_price_df,
     Completed (document pearson_ref pearson_ref zero_price_df sample_now)).
Proof.
  rewrite transform_eq.
  assert (df_empty zero_price_df = false) as -> by (by vm_compute).
  destruct (df_columns zero_price_df !! ("Close", "SPY")) eqn:E; [done|].
  vm_compute in E. discriminate E.
Qed.

Lemma sample_other_transform :
  transform pearson_ref pearson_ref sample_df_other sample_now =
    (progress pearson_ref sample_df_other,
     Completed (document pearson_ref pearson_ref sample_df_other sample_now)).
Proof.
  rewrite transform_eq.
  assert (df_empty sample_df_other = false) as -> by (by vm_compute).
  destruct (df_columns sample_df_other !! ("Close", "SPY")) eqn:E; [done|].
  vm_compute in E. discriminate E.
Qed.

(** * Further properties of the job *)

Section Further.
Variable frame_pearson series_pearson : list (float * float) → float.
Variable float_repr : float → string.

(** X1.  The keys of [tickers] follow the order of the registry, and
    the entry of a symbol carries the name and the sector that the
    registry gives for it. *)
Theorem X1_tickers_follow_registry df now out data :
  transform frame_pearson series_pearson df now = (out, Completed data) →
  keys (tickers data) `sublist_of` ticker_list ∧
  ∀ t e, dict_get t (tickers data) = Some e →
    dict_get t TICKERS = Some (te_name e, te_sector e).
Proof.
  intros (_ & _ & _ & ->)%transform_Completed. rewrite tickers_keys. split.
  - apply sublist_filter.
  - intros t e [Ht ->]%dict_get_fmap_pair_inv.
    apply valid_of_elem in Ht as [_ Ht].
    apply ticker_list_registered in Ht as [[name sector] Hreg].
    unfold entry_of. by rewrite Hreg.
Qed.

(** X2.  A run ends in one of two ways.  Either the exit status is 0
    and the file is written, which happens exactly when the table is
    not empty and has the benchmark's "Close" column; or the exit status
    is 1, nothing is written, and the last thing printed is a message
    that starts with "FAILED". *)
Theorem X2_exit_status_and_file df now :
  (exit_code (main frame_pearson series_pearson float_repr df now) = 0%Z ∧
   (∃ text, written (main frame_pearson series_pearson float_repr df now)
              = Some (outpath, text)) ∧
   df_empty df = false ∧ is_Some (df_columns df !! ("Close", "SPY"))) ∨
  (exit_code (main frame_pearson series_pearson float_repr df now) = 1%Z ∧
   written (main frame_pearson series_pearson float_repr df now) = None ∧
   (df_empty df = true ∨ df_columns df !! ("Close", "SPY") = None) ∧
   ∃ reason, last (stdout (main frame_pearson series_pearson float_repr df now))
               = Some ("FAILED" +:+ reason)).
Proof.
  unfold main. rewrite transform_eq.
  destruct (df_empty df).
  { right. split; [done|]. split; [done|]. split; [by left|]. by eexists. }
  destruct (df_columns df !! ("Close", "SPY")) as [col|].
  - left. split; [done|]. split; [by eexists|]. split; [done|by eexists].
  - right. split; [done|]. split; [done|]. split; [by right|]. by eexists.
Qed.

(** X3.  No number of the document is NaN: neither a return of the
    benchmark or of a symbol, nor a correlation, whatever the kernels
    compute. *)
Theorem X3_document_has_no_nan df now out data :
  transform frame_pearson series_pearson df now = (out, Completed data) →
  Forall (λ r, is_nan r = false) (spy_returns data) ∧
  (∀ t e, dict_get t (tickers data) = Some e →
     Forall (λ r, is_nan r = false) (te_returns e)) ∧
  (∀ k v, dict_get k (correlations data) = Some v → is_nan v = false).
Proof.
  intros (_ & _ & _ & ->)%transform_Completed.
  assert (∀ s, Forall (λ r, is_nan r = false) (rounded_returns (ret_of df s)))
    as Hret.
  { intros s. unfold rounded_returns, s_values. rewrite !Forall_fmap.
    eapply Forall_impl; [apply ret_of_not_nan|].
    intros [d r] Hr. by apply py_round_not_nan. }
  split; [apply Hret|]. split.
  - intros t e [_ ->]%dict_get_fmap_pair_inv. apply Hret.
  - intros k v [(i & j & t1 & t2 & _ & _ & _ & _ & Hn & ->)
               |(t & _ & _ & _ & Hn & ->)]%correlations_lookup;
      by apply py_round_not_nan.
Qed.

(** X4.  The returns of a retained symbol are those of the consecutive
    non-missing prices whose change is defined, and no others: every
    entry is the rounded percentage change of such a pair under the
    month of its later price, every such pair has an entry, there are at
    most as many entries as prices but one, and the dates follow the
    order of the price dates after the first. *)
Theorem X4_returns_of_defined_changes df now out data symbol dates returns close :
  transform frame_pearson series_pearson df now = (out, Completed data) →
  retained data symbol dates returns →
  close_of df symbol = Some close →
  length returns ≤ length close - 1 ∧
  dates `sublist_of` (strftime_Ym <$> tail (s_index close)) ∧
  (∀ i v, returns !! i = Some v →
     ∃ t p q, close !! t = Some p ∧ close !! S t = Some q ∧
       is_nan (q.2 / p.2 - 1)%float = false ∧
       v = py_round ((q.2 / p.2 - 1) * 100)%float 4 ∧
       dates !! i = Some (strftime_Ym q.1)) ∧
  (∀ t p q, close !! t = Some p → close !! S t = Some q →
     is_nan (q.2 / p.2 - 1)%float = false →
     ∃ i, returns !! i = Some (py_round ((q.2 / p.2 - 1) * 100)%float 4) ∧
          dates !! i = Some (strftime_Ym q.1)).
Proof.
  intros (_ & _ & _ & ->)%transform_Completed
    [-> ->]%retained_document Hclose.
  rewrite (ret_of_close _ _ _ Hclose).
  unfold rounded_returns, month_labels, s_values.
  split; [|split; [|split]].
  - rewrite !length_fmap. apply length_pct_returns.
  - apply fmap_sublist, s_index_pct_returns_sublist.
  - intros i v Hv. rewrite !list_lookup_fmap in Hv.
    destruct (pct_returns close !! i) as [[d r]|] eqn:Hi; [|done].
    injection Hv as <-.
    pose proof (list_elem_of_lookup_2 _ _ _ Hi) as Hin.
    apply elem_of_pct_returns in Hin as (t & p & q & Hp & Hq & -> & Hn & ->).
    exists t, p, q. do 4 (split; [done|]).
    unfold s_index. by rewrite !list_lookup_fmap, Hi.
  - intros t p q Hp Hq Hn.
    assert ((q.1, ((q.2 / p.2 - 1) * 100)%float) ∈ pct_returns close) as Hin.
    { apply elem_of_pct_returns. by exists t, p, q. }
    apply list_elem_of_lookup_1 in Hin as [i Hi]. exists i.
    unfold s_index. by rewrite !list_lookup_fmap, Hi.
Qed.

(** X5.  The benchmark is not subject to the threshold of 24 prices.
    With at most 13 non-missing benchmark prices the run still ends with
    exit status 0, the benchmark has at most 12 returns, and
    [correlations] has no key of the benchmark at all. *)
Theorem X5_short_benchmark df now close :
  df_empty df = false →
  close_of df "SPY" = Some close →
  length close ≤ 13 →
  ∃ out data,
    transform frame_pearson series_pearson df now = (out, Completed data) ∧
    exit_code (main frame_pearson series_pearson float_repr df now) = 0%Z ∧
    length (spy_returns data) ≤ 12 ∧
    ∀ x, pair_key "SPY" x ∉ keys (correlations data).
Proof.
  intros Hne Hclose Hlen. unfold main. rewrite transform_eq, Hne.
  assert (length (ret_of df "SPY") ≤ 12) as Hret.
  { rewrite (ret_of_close _ _ _ Hclose).
    etrans; [apply length_pct_returns|]. lia. }
  unfold close_of in Hclose.
  destruct (df_columns df !! ("Close", "SPY")) as [col|]; [|done].
  eexists _, _. split; [done|]. split; [done|]. split.
  - cbn [spy_returns document]. unfold rounded_returns, s_values.
    by rewrite !length_fmap.
  - intros x Hin.
    assert (x ∈ valid_of df) as Hx.
    { apply correlations_key_symbols in Hin
        as [(i & _ & ?%list_elem_of_lookup_2 & _)|[_ ?]]; [|done].
      by destruct (valid_of_not_SPY df). }
    apply dict_get_is_Some in Hin. rewrite spy_get in Hin by done.
    pose proof (length_inner_join (ret_of df "SPY") (ret_of df x)) as Hov.
    fold (overlap df "SPY" x) in Hov.
    rewrite (proj2 (Nat.ltb_ge _ _)) in Hin by lia. by destruct Hin.
Qed.

(** X6.  What the document holds for a symbol depends only on the
    dates of the table and on the symbol's own "Close" column: two
    tables that agree on these give the same entry in [tickers], or both
    give none, and for the benchmark they give the same dates and
    returns. *)
Theorem X6_entry_depends_on_own_column
    df1 df2 now1 now2 out1 out2 data1 data2 t :
  transform frame_pearson series_pearson df1 now1 = (out1, Completed data1) →
  transform frame_pearson series_pearson df2 now2 = (out2, Completed data2) →
  df_index df1 = df_index df2 →
  df_columns df1 !! ("Close", t) = df_columns df2 !! ("Close", t) →
  dict_get t (tickers data1) = dict_get t (tickers data2) ∧
  (t = "SPY" →
     spy_dates data1 = spy_dates data2 ∧ spy_returns data1 = spy_returns data2).
Proof.
  intros (_ & _ & _ & ->)%transform_Completed
         (_ & _ & _ & ->)%transform_Completed Hidx Hcol.
  pose proof (close_of_agree df1 df2 t Hidx Hcol) as Hc.
  cbn [tickers spy_dates spy_returns document]. split.
  - destruct (decide (t ∈ valid_of df1)) as [Hin|Hn].
    + rewrite !dict_get_fmap_pair by eauto using valid_of_agree.
      unfold entry_of. by rewrite (ret_of_agree df1 df2 t Hc).
    + rewrite !dict_get_fmap_pair_None; [done| |done].
      intros Hin. apply Hn. by apply (valid_of_agree df2 df1).
  - intros ->. by rewrite (ret_of_agree df1 df2 "SPY" Hc).
Qed.

(** X7.  An entry of [correlations] depends only on the dates of the
    table and on the "Close" columns of the two symbols of its key: two
    tables that agree on these give the same value under the key, or
    both give none, whatever the other columns hold. *)
Theorem X7_correlation_depends_on_two_columns
    df1 df2 now1 now2 out1 out2 data1 data2 t1 t2 :
  transform frame_pearson series_pearson df1 now1 = (out1, Completed data1) →
  transform frame_pearson series_pearson df2 now2 = (out2, Completed data2) →
  df_index df1 = df_index df2 →
  df_columns df1 !! ("Close", t1) = df_columns df2 !! ("Close", t1) →
  df_columns df1 !! ("Close", t2) = df_columns df2 !! ("Close", t2) →
  dict_get (pair_key t1 t2) (correlations data1) =
    dict_get (pair_key t1 t2) (correlations data2).
Proof.
  intros (_ & _ & _ & ->)%transform_Completed
         (_ & _ & _ & ->)%transform_Completed Hidx Hcol1 Hcol2.
  pose proof (close_of_agree df1 df2 t1 Hidx Hcol1) as Hc1.
  pose proof (close_of_agree df1 df2 t2 Hidx Hcol2) as Hc2.
  destruct (dict_get _ (correlations (document _ _ df1 now1))) as [v|] eqn:E1.
  { symmetry. by eapply correlations_transfer. }
  destruct (dict_get _ (correlations (document _ _ df2 now2))) as [v|] eqn:E2;
    [|done].
  eapply (correlations_transfer _ _ df2 df1 now2 now1) in E2; [|done..].
  congruence.
Qed.

(** X8.  No key occurs twice in [tickers] or in [correlations], and
    with [n] symbols in [tickers] there are at most [n (n - 1) / 2 + n]
    correlations: one per unordered pair and one per symbol with the
    benchmark. *)
Theorem X8_correlations_count df now out data :
  transform frame_pearson series_pearson df now = (out, Completed data) →
  NoDup (keys (tickers data)) ∧
  NoDup (keys (correlations data)) ∧
  2 * length (correlations data)
    ≤ length (tickers data) * (length (tickers data) + 1).
Proof.
  intros (_ & _ & _ & ->)%transform_Completed. rewrite tickers_keys.
  split; [apply valid_of_NoDup|]. split; [apply correlations_NoDup|].
  pose proof (submseteq_length _ _
    (NoDup_submseteq _ _ (correlations_NoDup frame_pearson series_pearson df now)
       (correlation_candidates frame_pearson series_pearson df now))) as Hle.
  pose proof (length_upper_pairs (valid_of df)) as Hup.
  unfold keys in Hle. rewrite length_app, !length_fmap in Hle.
  cbn [tickers document]. rewrite length_fmap. nia.
Qed.

(** X9.  The log of a successful run has the line of the benchmark
    followed by the number of the benchmark's returns, and after it, for
    every symbol in [tickers], the line of the symbol followed by the
    number of returns in its entry. *)
Theorem X9_log_reports_months df now out data :
  transform frame_pearson series_pearson df now = (out, Completed data) →
  (∃ l0 l, stdout (main frame_pearson series_pearson float_repr df now) =
             l0 ++ ["  Processing SPY ... ";
                    pretty (length (spy_returns data)) +:+ " months" +:+ nl]
                ++ l) ∧
  ∀ t e, dict_get t (tickers data) = Some e →
    ∃ l0 l1 l2, stdout (main frame_pearson series_pearson float_repr df now) =
      l0 ++ ["  Processing SPY ... ";
             pretty (length (spy_returns data)) +:+ " months" +:+ nl]
         ++ l1 ++ ["  " +:+ t +:+ " ... ";
                   pretty (length (te_returns e)) +:+ " months" +:+ nl]
         ++ l2.
Proof.
  intros Hrun. unfold main. rewrite Hrun. cbn [stdout].
  apply transform_Completed in Hrun as (_ & _ & -> & ->). split.
  - exists []. unfold progress. rewrite <-app_assoc. by eexists.
  - intros t e [Ht ->]%dict_get_fmap_pair_inv.
    apply valid_of_elem in Ht as [Hel Ht].
    apply list_elem_of_split in Ht as (la & lb & Hsplit).
    set (f := λ t : string, ["  " +:+ t +:+ " ... "; ticker_report df t]).
    assert (ticker_report df t =
              pretty (length (te_returns (entry_of df t))) +:+ " months" +:+ nl)
      as <-.
    { unfold ticker_report, entry_of, ret_of. unfold eligible in Hel.
      destruct (close_of df t) as [close|]; [|done].
      apply Nat.leb_le in Hel. by rewrite (proj2 (Nat.ltb_ge _ _)) by lia. }
    exists [], (la ≫= f). eexists.
    unfold progress. fold f. rewrite Hsplit, bind_app, bind_cons.
    cbn [document spy_returns].
    rewrite <-!app_assoc. reflexivity.
Qed.

(** X10.  A symbol in [tickers] whose non-missing prices are all
    positive and finite has at least 23 returns, one per price after the
    first, with as many dates. *)
Theorem X10_admitted_symbols_have_23_returns df now out data t e close :
  transform frame_pearson series_pearson df now = (out, Completed data) →
  dict_get t (tickers data) = Some e →
  close_of df t = Some close →
  Forall (λ p, (0 <? p.2)%float = true ∧ (p.2 <? infinity)%float = true) close →
  23 ≤ length (te_returns e) ∧
  length (te_returns e) = length close - 1 ∧
  length (te_dates e) = length (te_returns e).
Proof.
  intros (_ & _ & _ & ->)%transform_Completed
    [Ht ->]%dict_get_fmap_pair_inv Hclose Hpos.
  apply valid_of_elem in Ht as [Hel _]. unfold eligible in Hel.
  rewrite Hclose in Hel. apply Nat.leb_le in Hel.
  cbn [te_returns te_dates entry_of]. rewrite (ret_of_close _ _ _ Hclose).
  unfold rounded_returns, month_labels, s_values, s_index.
  rewrite !length_fmap.
  destruct (pct_returns_lookup close) as [Hlen _].
  { by apply positive_prices_changes_defined. }
  lia.
Qed.

(** X11.  A successful run ends its log with the summary line: the
    number of entries of [tickers] and of [correlations], the path of
    the file, and the length of the written text in units of 1024
    characters, rounded to the nearest integer. *)
Theorem X11_summary_line df now out data :
  transform frame_pearson series_pearson df now = (out, Completed data) →
  ∃ text size_kb,
    written (main frame_pearson series_pearson float_repr df now)
      = Some (outpath, text) ∧
    (Z.abs (1024 * size_kb - Z.of_nat (String.length text)) ≤ 512)%Z ∧
    last (stdout (main frame_pearson series_pearson float_repr df now)) =
      Some (nl +:+ "Saved " +:+ pretty (length (tickers data))
              +:+ " tickers + " +:+ pretty (length (correlations data))
              +:+ " correlations to " +:+ outpath
              +:+ " (" +:+ pretty size_kb +:+ " KB)" +:+ nl).
Proof.
  intros Hrun. unfold main. rewrite Hrun. cbn [written stdout].
  eexists _, _. split; [done|]. split; [|apply last_snoc].
  pose proof (div_half_even_nearest
    (Z.of_nat (String.length (json_dumps float_repr (data_json data)))) 1024).
  lia.
Qed.

(** X12.  The dates of a retained symbol are month labels of rows of
    the table, in the order of the rows, and never the label of the
    first row; so when no two rows of the table fall in the same month,
    no month occurs twice among the dates. *)
Theorem X12_dates_follow_table_rows df now out data symbol dates returns :
  transform frame_pearson series_pearson df now = (out, Completed data) →
  retained data symbol dates returns →
  dates `sublist_of` (strftime_Ym <$> tail (df_index df)) ∧
  (NoDup (strftime_Ym <$> df_index df) → NoDup dates).
Proof.
  intros (_ & _ & _ & ->)%transform_Completed [-> _]%retained_document.
  assert (month_labels (ret_of df symbol)
            `sublist_of` (strftime_Ym <$> tail (df_index df))) as Hsub.
  { apply fmap_sublist, s_index_ret_of_sublist. }
  split; [done|]. intros Hnd. eapply sublist_NoDup; [done|].
  etrans; [done|]. apply fmap_sublist.
  destruct (df_index df); [done|]. by apply sublist_cons.
Qed.
End Further.

(** ** The further properties on the sample tables *)

Lemma X1_tickers_follow_registry_witness :
  let data := document pearson_ref pearson_ref sample_df sample_now in
  keys (tickers data) `sublist_of` ticker_list ∧
  ∀ t e, dict_get t (tickers data) = Some e →
    dict_get t TICKERS = Some (te_name e, te_sector e).
Proof.
  exact (X1_tickers_follow_registry pearson_ref pearson_ref sample_df
           sample_now _ _ sample_transform).
Defined.

Lemma X3_document_has_no_nan_witness :
  let data := document pearson_ref pearson_ref zero_price_df sample_now in
  Forall (λ r, is_nan r = false) (spy_returns data) ∧
  (∀ t e, dict_get t (tickers data) = Some e →
     Forall (λ r, is_nan r = false) (te_returns e)) ∧
  (∀ k v, dict_get k (correlations data) = Some v → is_nan v = false).
Proof.
  exact (X3_document_has_no_nan pearson_ref pearson_ref zero_price_df
           sample_now _ _ zero_price_transform).
Defined.

Lemma X4_returns_of_defined_changes_witness :
  let close := default [] (close_of zero_price_df "SPY") in
  let data := document pearson_ref pearson_ref zero_price_df sample_now in
  length (spy_returns data) ≤ length close - 1 ∧
  spy_dates data `sublist_of` (strftime_Ym <$> tail (s_index close)) ∧
  (∀ i v, spy_returns data !! i = Some v →
     ∃ t p q, close !! t = Some p ∧ close !! S t = Some q ∧
       is_nan (q.2 / p.2 - 1)%float = false ∧
       v = py_round ((q.2 / p.2 - 1) * 100)%float 4 ∧
       spy_dates data !! i = Some (strftime_Ym q.1)) ∧
  (∀ t p q, close !! t = Some p → close !! S t = Some q →
     is_nan (q.2 / p.2 - 1)%float = false →
     ∃ i, spy_returns data !! i
            = Some (py_round ((q.2 / p.2 - 1) * 100)%float 4) ∧
          spy_dates data !! i = Some (strftime_Ym q.1)).
Proof.
  apply (X4_returns_of_defined_changes pearson_ref pearson_ref zero_price_df
           sample_now _ _ "SPY" _ _ _ zero_price_transform).
  - by left.
  - by vm_compute.
Defined.

Lemma X5_short_benchmark_witness :
  ∃ out data,
    transform pearson_ref pearson_ref zero_price_df sample_now
      = (out, Completed data) ∧
    exit_code (main pearson_ref pearson_ref dyadic_repr zero_price_df sample_now)
      = 0%Z ∧
    length (spy_returns data) ≤ 12 ∧
    ∀ x, pair_key "SPY" x ∉ keys (correlations data).
Proof.
  apply (X5_short_benchmark pearson_ref pearson_ref dyadic_repr zero_price_df
           sample_now (default [] (close_of zero_price_df "SPY"))).
  - by vm_compute.
  - by vm_compute.
  - apply Nat.leb_le. by vm_compute.
Defined.

Lemma X6_entry_depends_on_own_column_witness :
  dict_get "AAPL"
    (tickers (document pearson_ref pearson_ref sample_df sample_now)) =
  dict_get "AAPL"
    (tickers (document pearson_ref pearson_ref sample_df_other sample_now)) ∧
  ("AAPL" = "SPY" →
     spy_dates (document pearson_ref pearson_ref sample_df sample_now) =
       spy_dates (document pearson_ref pearson_ref sample_df_other sample_now) ∧
     spy_returns (document pearson_ref pearson_ref sample_df sample_now) =
       spy_returns (document pearson_ref pearson_ref sample_df_other sample_now)).
Proof.
  apply (X6_entry_depends_on_own_column pearson_ref pearson_ref
           sample_df sample_df_other sample_now sample_now _ _ _ _ "AAPL"
           sample_transform sample_other_transform).
  - by vm_compute.
  - by vm_compute.
Defined.

Lemma X7_correlation_depends_on_two_columns_witness :
  dict_get (pair_key "AAPL" "MSFT")
    (correlations (document pearson_ref pearson_ref sample_df sample_now)) =
  dict_get (pair_key "AAPL" "MSFT")
    (correlations (document pearson_ref pearson_ref sample_df_other sample_now)).
Proof.
  apply (X7_correlation_depends_on_two_columns pearson_ref pearson_ref
           sample_df sample_df_other sample_now sample_now _ _ _ _
           "AAPL" "MSFT" sample_transform sample_other_transform).
  - by vm_compute.
  - by vm_compute.
  - by vm_compute.
Defined.

Lemma X8_correlations_count_witness :
  let data := document pearson_ref pearson_ref sample_df sample_now in
  NoDup (keys (tickers data)) ∧
  NoDup (keys (correlations data)) ∧
  2 * length (correlations data)
    ≤ length (tickers data) * (length (tickers data) + 1).
Proof.
  exact (X8_correlations_count pearson_ref pearson_ref sample_df sample_now
           _ _ sample_transform).
Defined.

Lemma X9_log_reports_months_witness :
  let data := document pearson_ref pearson_ref sample_df sample_now in
  (∃ l0 l, stdout (main pearson_ref pearson_ref dyadic_repr sample_df sample_now) =
             l0 ++ ["  Processing SPY ... ";
                    pretty (length (spy_returns data)) +:+ " months" +:+ nl]
                ++ l) ∧
  ∀ t e, dict_get t (tickers data) = Some e →
    ∃ l0 l1 l2, stdout (main pearson_ref pearson_ref dyadic_repr sample_df sample_now) =
      l0 ++ ["  Processing SPY ... ";
             pretty (length (spy_returns data)) +:+ " months" +:+ nl]
         ++ l1 ++ ["  " +:+ t +:+ " ... ";
                   pretty (length (te_returns e)) +:+ " months" +:+ nl]
         ++ l2.
Proof.
  exact (X9_log_reports_months pearson_ref pearson_ref dyadic_repr sample_df
           sample_now _ _ sample_transform).
Defined.

Lemma X10_admitted_symbols_have_23_returns_witness :
  let e := entry_of sample_df "MSFT" in
  let close := default [] (close_of sample_df "MSFT") in
  23 ≤ length (te_returns e) ∧
  length (te_returns e) = length close - 1 ∧
  length (te_dates e) = length (te_returns e).
Proof.
  apply (X10_admitted_symbols_have_23_returns pearson_ref pearson_ref
           sample_df sample_now _ _ "MSFT" _ _ sample_transform).
  - by vm_compute.
  - by vm_compute.
  - apply (bool_decide_unpack _). by vm_compute.
Defined.

Lemma X11_summary_line_witness :
  let data := document pearson_ref pearson_ref sample_df sample_now in
  ∃ text size_kb,
    written (main pearson_ref pearson_ref dyadic_repr sample_df sample_now)
      = Some (outpath, text) ∧
    (Z.abs (1024 * size_kb - Z.of_nat (String.length text)) ≤ 512)%Z ∧
    last (stdout (main pearson_ref pearson_ref dyadic_repr sample_df sample_now)) =
      Some (nl +:+ "Saved " +:+ pretty (length (tickers data))
              +:+ " tickers + " +:+ pretty (length (correlations data))
              +:+ " correlations to " +:+ outpath
              +:+ " (" +:+ pretty size_kb +:+ " KB)" +:+ nl).
Proof.
  exact (X11_summary_line pearson_ref pearson_ref dyadic_repr sample_df
           sample_now _ _ sample_transform).
Defined.

Lemma X12_dates_follow_table_rows_witness :
  let e := entry_of sample_df "MSFT" in
  te_dates e `sublist_of` (strftime_Ym <$> tail (df_index sample_df)) ∧
  (NoDup (strftime_Ym <$> df_index sample_df) → NoDup (te_dates e)).
Proof.
  apply (X12_dates_follow_table_rows pearson_ref pearson_ref sample_df
           sample_now _ _ "MSFT" _ (te_returns (entry_of sample_df "MSFT"))
           sample_transform).
  right. exists (entry_of sample_df "MSFT"). split; [by vm_compute|done].
Defined.

(** Readings of the other sample table: with three symbols in [tickers]
    the bound of six correlations is reached; the pair of "AAPL" and
    "MSFT" has the value it has for [sample_df], while the benchmark,
    whose prices differ, correlates differently with "AAPL". *)
Example sample_other_correlation_keys :
  keys (correlations (document pearson_ref pearson_ref sample_df_other sample_now))
    = ["AAPL,MSFT"; "AAPL,GOOGL"; "MSFT,GOOGL";
       "SPY,AAPL"; "SPY,MSFT"; "SPY,GOOGL"].
Proof. by vm_compute. Qed.

Example sample_other_benchmark :
  dict_get "SPY,AAPL"
    (correlations (document pearson_ref pearson_ref sample_df_other sample_now))
  ≠ dict_get "SPY,AAPL"
      (correlations (document pearson_ref pearson_ref sample_df sample_now)).
Proof. by vm_compute. Qed.

(** The log and the summary of a run whose benchmark has four prices. *)
Example zero_price_summary :
  last (stdout (main pearson_ref pearson_ref dyadic_repr zero_price_df sample_now))
    = Some (nl +:+ "Saved 0 tickers + 0 correlations to portfolio_data.json (0 KB)"
              +:+ nl).
Proof. by vm_compute. Qed.
